(** * Bootstrap mediation analysis ([src/analysis/04_bootstrap_mediation.py])

    A shallow embedding of the script: the recoding of the sheet and the
    working sample, the design arrays, the derived point estimates, the
    Sobel test, [mediation_fast], the bootstrap loop over NumPy's global
    random generator, the validity mask and the percentile intervals.

    NumPy [float64] values are kept behind the interface [Float64].  Two
    implementations are given: [b64], IEEE 754 binary64 as specified by the
    standard library's [SpecFloat] (what NumPy computes with), and [xq],
    extended rationals with the same special values and exact finite
    arithmetic.  Library routines that are not part of the repository
    ([numpy.linalg.lstsq], [numpy.random], [numpy.percentile],
    [scipy.stats.norm.cdf], the power function) are parameters of the
    development; where a property rests on what such a routine does, its
    documented behaviour is a hypothesis (the range of [randint], the
    exception of [percentile] on an empty array).  Reference
    implementations of the generator, the solver and the percentile serve
    to run the model on sample data. *)

From Stdlib Require Import String ZArith List Bool Lia QArith Qround SpecFloat.
Import ListNotations.

Local Open Scope Z_scope.

(** ** Python exceptions and the error monad *)

Inductive exn : Type :=
| IndexError
| ValueError
| LinAlgError.

Inductive result (A : Type) : Type :=
| Ok (a : A)
| Raise (e : exn).

Arguments Ok {A} a.
Arguments Raise {A} e.

Definition bind {A B : Type} (r : result A) (k : A -> result B) : result B :=
  match r with
  | Ok a => k a
  | Raise e => Raise e
  end.

Notation "x <- c ;; k" := (bind c (fun x => k))
  (at level 61, c at next level, right associativity).

Definition is_ok {A : Type} (r : result A) : bool :=
  match r with
  | Ok _ => true
  | Raise _ => false
  end.

(** ** The [float64] interface *)

Class Float64 (F : Type) : Type := {
  fadd : F -> F -> F;
  fsub : F -> F -> F;
  fmul : F -> F -> F;
  fdiv : F -> F -> F;
  (* [x <= y], false as soon as one side is NaN *)
  fleb : F -> F -> bool;
  (* [np.isnan] and [np.nan] *)
  fisnan : F -> bool;
  fnan : F;
  (* conversion of a Python [int], and of an exact rational weight *)
  fof_Z : Z -> F;
  fof_Q : Q -> F;
  fisnan_nan : fisnan fnan = true
}.

(** ** Arrays *)

Definition vector (F : Type) : Type := list F.
Definition matrix (F : Type) : Type := list (list F).

(** [arr[i]] for a Python integer [i]: negative indices count from the end,
    anything outside [-len, len) raises [IndexError]. *)
Definition getitem {A : Type} (arr : list A) (i : Z) : result A :=
  let n := Z.of_nat (length arr) in
  let j := if i <? 0 then n + i else i in
  if (0 <=? j) && (j <? n) then
    match nth_error arr (Z.to_nat j) with
    | Some v => Ok v
    | None => Raise IndexError
    end
  else Raise IndexError.

(** [arr[idx]] for an integer index array [idx] (a gather along axis 0). *)
Fixpoint take {A : Type} (arr : list A) (idx : list Z) : result (list A) :=
  match idx with
  | [] => Ok []
  | i :: rest =>
      v <- getitem arr i ;;
      vs <- take arr rest ;;
      Ok (v :: vs)
  end.

(** The entries of [arr] at the positions [idx], in the order drawn,
    repeated as often as drawn: what [arr[idx]] holds when no index is
    out of range. *)
Definition rows_at {A : Type} (arr : list A) (d : A) (idx : list Z) : list A :=
  map (fun i => nth (Z.to_nat i) arr d) idx.

(** [arr[i] = v] for [i] produced by [range]: raises [IndexError] past the
    end. *)
Fixpoint setitem {A : Type} (arr : list A) (i : nat) (v : A) : result (list A) :=
  match arr, i with
  | [], _ => Raise IndexError
  | _ :: t, O => Ok (v :: t)
  | x :: t, S i' => t' <- setitem t i' v ;; Ok (x :: t')
  end.

(** [np.full(n, v)] *)
Definition full {A : Type} (n : nat) (v : A) : list A := repeat v n.

(** [np.column_stack([X, y])] for a 2-D [X] and a 1-D [y]: [y] becomes one
    more column; differing row counts raise [ValueError]. *)
Fixpoint append_column {F : Type} (X : matrix F) (y : vector F) : matrix F :=
  match X, y with
  | row :: X', v :: y' => (row ++ [v]) :: append_column X' y'
  | _, _ => []
  end.

Definition column_stack {F : Type} (X : matrix F) (y : vector F) : result (matrix F) :=
  if Nat.eqb (length X) (length y) then Ok (append_column X y)
  else Raise ValueError.

(** [arr[mask]] for a boolean mask of the same length. *)
Fixpoint select {A : Type} (mask : list bool) (arr : list A) : list A :=
  match mask, arr with
  | m :: mask', x :: arr' => if m then x :: select mask' arr' else select mask' arr'
  | _, _ => []
  end.

(** Element-wise binary operation on two 1-D arrays of one shape. *)
Fixpoint map2 {A B C : Type} (f : A -> B -> C) (xs : list A) (ys : list B) : list C :=
  match xs, ys with
  | x :: xs', y :: ys' => f x y :: map2 f xs' ys'
  | _, _ => []
  end.

(** [mask.sum()] *)
Definition count_true (mask : list bool) : nat := length (filter (fun b => b) mask).

(** A matrix with [n] rows of [k] entries each. *)
Definition has_shape {F : Type} (X : matrix F) (n k : nat) : Prop :=
  length X = n /\ Forall (fun row => length row = k) X.

(** ** The least-squares solver [np.linalg.lstsq(X, y, rcond=None)[0]] *)

Class Lstsq (F : Type) : Type :=
  lstsq : matrix F -> vector F -> result (vector F).

(** ** The mediation estimator *)

Definition PFORR_COL : Z := 1.

Definition mediation_fast {F : Type} {solver : Lstsq F}
  (X : matrix F) (Yme Yout : vector F) : result (F * F * F) :=
  coef_me <- lstsq X Yme ;;
  Xout <- column_stack X Yme ;;
  coef_out <- lstsq Xout Yout ;;
  a <- getitem coef_me PFORR_COL ;;
  b <- getitem coef_out (-1) ;;
  d <- getitem coef_out PFORR_COL ;;
  Ok (a, b, d).

(** ** Point estimates (script lines 57-62)

    [a], [b] and [d] are the three coefficients read off the two
    [statsmodels] fits. *)

Record point_estimates (F : Type) : Type := {
  a_pt : F;
  b_pt : F;
  d_pt : F;
  ind_pt : F;
  tot_pt : F;
  pct_pt : F
}.

Arguments a_pt {F} _.
Arguments b_pt {F} _.
Arguments d_pt {F} _.
Arguments ind_pt {F} _.
Arguments tot_pt {F} _.
Arguments pct_pt {F} _.

Definition point {F : Type} {fl : Float64 F} (a b d : F) : point_estimates F :=
  let ind := fmul a b in
  let tot := fadd ind d in
  let pct := fmul (fdiv ind tot) (fof_Z 100) in
  {| a_pt := a; b_pt := b; d_pt := d; ind_pt := ind; tot_pt := tot; pct_pt := pct |}.

(** ** The Sobel test (script lines 73-77) *)

Section Sobel.

Context {F : Type} {fl : Float64 F}.

(** [np.sqrt], [abs], [x ** k] for a Python [int] exponent, and
    [scipy.stats.norm.cdf]. *)
Variable np_sqrt : F -> F.
Variable py_abs : F -> F.
Variable py_pow : F -> Z -> F.
Variable norm_cdf : F -> F.

Definition sobel_se (pe : point_estimates F) (se_a se_b : F) : F :=
  np_sqrt (fadd (fmul (py_pow (b_pt pe) 2) (py_pow se_a 2))
                (fmul (py_pow (a_pt pe) 2) (py_pow se_b 2))).

Definition sobel_z (pe : point_estimates F) (se_a se_b : F) : F :=
  fdiv (ind_pt pe) (sobel_se pe se_a se_b).

Definition sobel_p (pe : point_estimates F) (se_a se_b : F) : F :=
  fmul (fof_Z 2) (fsub (fof_Z 1) (norm_cdf (py_abs (sobel_z pe se_a se_b)))).

(** The test as the specification words it, on the four scalars. *)
Definition sobel_formula (a se_a b se_b : F) : F * F * F :=
  let se := np_sqrt (fadd (fmul (py_pow b 2) (py_pow se_a 2))
                          (fmul (py_pow a 2) (py_pow se_b 2))) in
  let z := fdiv (fmul a b) se in
  let p := fmul (fof_Z 2) (fsub (fof_Z 1) (norm_cdf (py_abs z))) in
  (se, z, p).

End Sobel.

(** ** Percentiles *)

(** Sorting, for the reference percentile below. *)
Fixpoint insert_sorted {F : Type} {fl : Float64 F} (x : F) (l : list F) : list F :=
  match l with
  | [] => [x]
  | y :: t => if fleb x y then x :: l else y :: insert_sorted x t
  end.

Definition sort_values {F : Type} {fl : Float64 F} (l : list F) : list F :=
  fold_right insert_sorted [] l.

(** [np.percentile(arr, q)] belongs to NumPy, so it is a parameter.  The
    call can raise: on an empty array NumPy's indexing raises
    [IndexError]. *)
Class Percentile (F : Type) : Type :=
  np_percentile : vector F -> F -> result F.

(** The two levels the script asks for, [2.5] and [97.5]. *)
Definition ci_level {F : Type} {fl : Float64 F} (q : F) : Prop :=
  q = fof_Q (5 # 2) \/ q = fof_Q (195 # 2).

(** What the development uses of [np.percentile] at these levels: it
    raises [IndexError] on an empty array, returns on every other array,
    and returns NaN when the array holds a NaN. *)
Record percentile_contract {F : Type} {fl : Float64 F} (pc : Percentile F) : Prop := {
  percentile_empty :
    forall q, ci_level q -> np_percentile [] q = Raise IndexError;
  percentile_returns :
    forall arr q, ci_level q -> arr <> [] -> exists v, np_percentile arr q = Ok v;
  percentile_nan :
    forall arr q, ci_level q -> existsb fisnan arr = true ->
      np_percentile arr q = Ok fnan
}.

(** [ci] (script lines 121-122): the tuple is built left to right, so the
    2.5th percentile is computed first. *)
Definition ci {F : Type} {fl : Float64 F} {pc : Percentile F} (arr : vector F)
  : result (F * F) :=
  lo <- np_percentile arr (fof_Q (5 # 2)) ;;
  hi <- np_percentile arr (fof_Q (195 # 2)) ;;
  Ok (lo, hi).

(** ** NumPy's process-wide random generator *)

Class RandomState (G : Type) : Type := {
  (* [np.random.seed(s)]: the state a seed sets *)
  random_seed : Z -> G;
  (* [np.random.randint(low, high, size)]: the draws and the next state *)
  random_randint : G -> Z -> Z -> Z -> result (list Z * G)
}.

(** What NumPy documents for [randint]: [size] integers of [[low, high)]. *)
Definition randint_contract {G : Type} (rs : RandomState G) : Prop :=
  forall g low high size,
    low < high -> 0 <= size ->
    exists idx g',
      random_randint g low high size = Ok (idx, g') /\
      length idx = Z.to_nat size /\
      Forall (fun i => low <= i < high) idx.

(** ** The bootstrap (script lines 100-127) *)

Record boot_arrays (F : Type) : Type := {
  boot_ind : vector F;
  boot_dir : vector F
}.

Arguments boot_ind {F} _.
Arguments boot_dir {F} _.

(** What lines 115-127 compute: the count of valid iterations, and for
    each of the four distributions what its call of [ci] gives, a pair of
    bounds or the exception it raises. *)
Record report (F : Type) : Type := {
  n_valid : nat;
  n_requested : nat;
  ci_ind : result (F * F);
  ci_dir : result (F * F);
  ci_tot : result (F * F);
  ci_pct : result (F * F)
}.

Arguments n_valid {F} _.
Arguments n_requested {F} _.
Arguments ci_ind {F} _.
Arguments ci_dir {F} _.
Arguments ci_tot {F} _.
Arguments ci_pct {F} _.

Definition N_BOOT : nat := 2000.

Section Bootstrap.

Context {F : Type} {fl : Float64 F} {solver : Lstsq F}.
Context {G : Type} {rs : RandomState G}.

(** The arrays built from [df2], and [n = len(df2)]. *)
Variable X : matrix F.
Variable Y_me : vector F.
Variable Y_out : vector F.
Variable n : Z.

(** [mediation_fast(X[idx], Y_me[idx], Y_out[idx])] *)
Definition resample_estimate (idx : list Z) : result (F * F * F) :=
  Xb <- take X idx ;;
  Mb <- take Y_me idx ;;
  Ob <- take Y_out idx ;;
  mediation_fast Xb Mb Ob.

(** The [try] block of iteration [i]: any exception leaves the arrays as
    they are at that point ([except Exception: pass]). *)
Definition try_body (i : nat) (idx : list Z) (arrs : boot_arrays F) : boot_arrays F :=
  match resample_estimate idx with
  | Raise _ => arrs
  | Ok (a, b, d) =>
      match setitem (boot_ind arrs) i (fmul a b) with
      | Raise _ => arrs
      | Ok bi =>
          match setitem (boot_dir arrs) i d with
          | Raise _ => {| boot_ind := bi; boot_dir := boot_dir arrs |}
          | Ok bd => {| boot_ind := bi; boot_dir := bd |}
          end
      end
  end.

(** [for i in range(N_BOOT)], with [todo] iterations left; the call of
    [randint] stands outside the [try]. *)
Fixpoint boot_loop (todo i : nat) (g : G) (arrs : boot_arrays F)
  : result (boot_arrays F * G) :=
  match todo with
  | O => Ok (arrs, g)
  | S todo' =>
      match random_randint g 0 n n with
      | Raise e => Raise e
      | Ok (idx, g') => boot_loop todo' (S i) g' (try_body i idx arrs)
      end
  end.

(** The index arrays the loop draws, one per iteration, in order. *)
Fixpoint draws (todo : nat) (g : G) : result (list (list Z) * G) :=
  match todo with
  | O => Ok ([], g)
  | S todo' =>
      match random_randint g 0 n n with
      | Raise e => Raise e
      | Ok (idx, g') =>
          match draws todo' g' with
          | Raise e => Raise e
          | Ok (rest, g'') => Ok (idx :: rest, g'')
          end
      end
  end.

End Bootstrap.

(** What one iteration leaves in its slot of [boot_ind] and [boot_dir]. *)
Definition ind_of {F : Type} {fl : Float64 F} (r : result (F * F * F)) : F :=
  match r with
  | Ok (a, b, _) => fmul a b
  | Raise _ => fnan
  end.

Definition dir_of {F : Type} {fl : Float64 F} (r : result (F * F * F)) : F :=
  match r with
  | Ok (_, _, d) => d
  | Raise _ => fnan
  end.

(** Whether an iteration that ended this way passes [~np.isnan(boot_ind)]. *)
Definition outcome_valid {F : Type} {fl : Float64 F} (r : result (F * F * F)) : bool :=
  negb (fisnan (ind_of r)).

(** The arrays as [np.full(N_BOOT, np.nan)] creates them. *)
Definition initial_arrays {F : Type} {fl : Float64 F} (n_boot : nat) : boot_arrays F :=
  {| boot_ind := full n_boot fnan; boot_dir := full n_boot fnan |}.

Section Aggregate.

Context {F : Type} {fl : Float64 F} {pc : Percentile F}.

Variable arrs : boot_arrays F.

(** [valid = ~np.isnan(boot_ind)] *)
Definition valid : list bool := map (fun v => negb (fisnan v)) (boot_ind arrs).

Definition valid_ind : vector F := select valid (boot_ind arrs).
Definition valid_dir : vector F := select valid (boot_dir arrs).

(** [boot_tot = boot_ind[valid] + boot_dir[valid]] *)
Definition boot_tot : vector F := map2 fadd valid_ind valid_dir.

(** [boot_pct = boot_ind[valid] / boot_tot * 100] *)
Definition boot_pct : vector F :=
  map (fun r => fmul r (fof_Z 100)) (map2 fdiv valid_ind boot_tot).

Definition summary (requested : nat) : report F :=
  {| n_valid := count_true valid;
     n_requested := requested;
     ci_ind := ci valid_ind;
     ci_dir := ci valid_dir;
     ci_tot := ci boot_tot;
     ci_pct := ci boot_pct |}.

End Aggregate.

Section Script.

Context {F : Type} {fl : Float64 F} {solver : Lstsq F} {pc : Percentile F}.
Context {G : Type} {rs : RandomState G}.

(** [np.random.seed(s)] on the global generator: whatever its state [g0]
    was, the state is now the one the seed sets. *)
Definition np_random_seed (g0 : G) (s : Z) : G := random_seed s.

(** Lines 124-127: the four calls of [ci] stand outside the [try], one
    after the other; the first that raises ends the script. *)
Definition intervals (r : report F) : result (report F) :=
  _ <- ci_ind r ;;
  _ <- ci_dir r ;;
  _ <- ci_tot r ;;
  _ <- ci_pct r ;;
  Ok r.

(** Lines 100-127 as one function of the arrays, [n], the number of
    iterations and the state [g0] of the global generator when the script
    reaches line 100: [np.random.seed(42)] replaces that state, the loop
    draws from the global generator, and the state it leaves is returned
    with the report. *)
Definition bootstrap (X : matrix F) (Y_me Y_out : vector F) (n : Z)
  (n_boot : nat) (g0 : G) : result (report F * G) :=
  let g := np_random_seed g0 42 in
  match boot_loop X Y_me Y_out n n_boot 0 g (initial_arrays n_boot) with
  | Raise e => Raise e
  | Ok (arrs, g') =>
      r <- intervals (summary arrs n_boot) ;;
      Ok (r, g')
  end.

(** One retained row of [df2]; [region_dummies] is the row of
    [pd.get_dummies(df2["region"], drop_first=True)]. *)
Record obs : Type := {
  pforr : F;
  approval_fy : F;
  vol_ord : F;
  fcs : F;
  region_dummies : list F;
  outcome_num : F;
  me_num : F
}.

(** Lines 82-91: the design matrix and the two responses. *)
Definition design_row (o : obs) : list F :=
  [fof_Z 1; pforr o; approval_fy o; vol_ord o; fcs o] ++ region_dummies o.

Definition design_X (df2 : list obs) : matrix F := map design_row df2.
Definition design_Y_out (df2 : list obs) : vector F := map outcome_num df2.
Definition design_Y_me (df2 : list obs) : vector F := map me_num df2.

Definition script (df2 : list obs) (g0 : G) : result (report F * G) :=
  bootstrap (design_X df2) (design_Y_me df2) (design_Y_out df2)
            (Z.of_nat (length df2)) N_BOOT g0.

End Script.

(** ** IEEE 754 binary64 *)

Definition b64 : Type := spec_float.

Definition b64_prec : Z := 53.
Definition b64_emax : Z := 1024.

Definition b64_isnan (x : b64) : bool :=
  match x with
  | S754_nan => true
  | _ => false
  end.

Definition b64_of_Z (z : Z) : b64 := binary_normalize b64_prec b64_emax z 0 false.

Definition b64_of_Q (q : Q) : b64 :=
  SFdiv b64_prec b64_emax (b64_of_Z (Qnum q)) (b64_of_Z (Zpos (Qden q))).

#[export] Instance b64_float : Float64 b64 := {|
  fadd := SFadd b64_prec b64_emax;
  fsub := SFsub b64_prec b64_emax;
  fmul := SFmul b64_prec b64_emax;
  fdiv := SFdiv b64_prec b64_emax;
  fleb := SFleb;
  fisnan := b64_isnan;
  fnan := S754_nan;
  fof_Z := b64_of_Z;
  fof_Q := b64_of_Q;
  fisnan_nan := eq_refl
|}.

Definition b64_sqrt (x : b64) : b64 := SFsqrt b64_prec b64_emax x.
Definition b64_abs (x : b64) : b64 := SFabs x.

(** [x ** k] by repeated multiplication, enough for the squares the script
    takes. *)
Definition b64_pow (x : b64) (k : Z) : b64 :=
  Z.iter k (fun acc => SFmul b64_prec b64_emax acc x) (b64_of_Z 1).

(** ** Extended rationals: exact finite arithmetic with IEEE special values

    Finite results are never rounded and never overflow; zero carries no
    sign (it divides like [+0.0]). *)

Inductive xq : Type :=
| XFin (q : Q)
| XPInf
| XNInf
| XNaN.

Definition xq_inf (negative : bool) : xq := if negative then XNInf else XPInf.

Definition Qneg_b (q : Q) : bool := (Qnum q <? 0)%Z.
Definition Qzero_b (q : Q) : bool := (Qnum q =? 0)%Z.

Definition xq_opp (x : xq) : xq :=
  match x with
  | XFin q => XFin (Qred (- q))
  | XPInf => XNInf
  | XNInf => XPInf
  | XNaN => XNaN
  end.

Definition xq_add (x y : xq) : xq :=
  match x, y with
  | XNaN, _ | _, XNaN => XNaN
  | XPInf, XNInf | XNInf, XPInf => XNaN
  | XPInf, _ | _, XPInf => XPInf
  | XNInf, _ | _, XNInf => XNInf
  | XFin a, XFin b => XFin (Qred (a + b))
  end.

Definition xq_sub (x y : xq) : xq := xq_add x (xq_opp y).

Definition xq_mul (x y : xq) : xq :=
  match x, y with
  | XNaN, _ | _, XNaN => XNaN
  | XFin a, XFin b => XFin (Qred (a * b))
  | XFin a, XPInf | XPInf, XFin a =>
      if Qzero_b a then XNaN else xq_inf (Qneg_b a)
  | XFin a, XNInf | XNInf, XFin a =>
      if Qzero_b a then XNaN else xq_inf (negb (Qneg_b a))
  | XPInf, XPInf | XNInf, XNInf => XPInf
  | XPInf, XNInf | XNInf, XPInf => XNInf
  end.

Definition xq_div (x y : xq) : xq :=
  match x, y with
  | XNaN, _ | _, XNaN => XNaN
  | XFin a, XFin b =>
      if Qzero_b b then
        if Qzero_b a then XNaN else xq_inf (Qneg_b a)
      else XFin (Qred (a / b))
  | XFin _, _ => XFin 0
  | XPInf, XFin b => xq_inf (Qneg_b b)
  | XNInf, XFin b => xq_inf (negb (Qneg_b b))
  | _, _ => XNaN
  end.

Definition xq_leb (x y : xq) : bool :=
  match x, y with
  | XNaN, _ | _, XNaN => false
  | XNInf, _ => true
  | _, XPInf => true
  | XFin a, XFin b => Qle_bool a b
  | _, _ => false
  end.

Definition xq_isnan (x : xq) : bool :=
  match x with
  | XNaN => true
  | _ => false
  end.

#[export] Instance xq_float : Float64 xq := {|
  fadd := xq_add;
  fsub := xq_sub;
  fmul := xq_mul;
  fdiv := xq_div;
  fleb := xq_leb;
  fisnan := xq_isnan;
  fnan := XNaN;
  fof_Z := fun z => XFin (inject_Z z);
  fof_Q := fun q => XFin (Qred q);
  fisnan_nan := eq_refl
|}.

(** ** A small generator to run the model on

    NumPy's Mersenne Twister is replaced by a linear congruential generator
    with the same interface; nothing below depends on which generator it
    is beyond [randint_contract]. *)

Definition lcg_next (s : Z) : Z := (1103515245 * s + 12345) mod 2147483648.

Fixpoint lcg_draw (count : nat) (s low high : Z) : list Z * Z :=
  match count with
  | O => ([], s)
  | S count' =>
      let s' := lcg_next s in
      let (rest, s'') := lcg_draw count' s' low high in
      (low + (s' / 65536) mod (high - low) :: rest, s'')
  end.

Definition lcg_randint (s low high size : Z) : result (list Z * Z) :=
  if (low <? high) && (0 <=? size) then Ok (lcg_draw (Z.to_nat size) s low high)
  else Raise ValueError.

#[export] Instance lcg : RandomState Z := {|
  random_seed := fun s => s mod 2147483648;
  random_randint := lcg_randint
|}.

(** ** A reference least-squares solver to run the model on

    NumPy's solver (LAPACK [gelsd]) is outside the repository.  This one
    forms the normal equations and reduces them by Gauss-Jordan
    elimination; a design whose rows are all one and the same row (a
    resample that drew a single observation [n] times) gets the
    minimum-norm solution in closed form, [r * mean(y) / (r . r)].  A
    design that holds a NaN or an infinity raises [LinAlgError], as it does
    in NumPy, where the decomposition does not converge; a NaN in the
    response alone is carried into the coefficients.  Other
    rank-deficient designs, which NumPy also solves, are reported singular
    here, and finite results carry the rounding of this elimination, not
    of LAPACK's. *)

Section Reference_solver.

Context {F : Type} {fl : Float64 F}.

Definition fzero : F := fof_Z 0.
Definition fis_zero (x : F) : bool := fleb x fzero && fleb fzero x.
Definition feqb (x y : F) : bool := fleb x y && fleb y x.

(** [np.isfinite]: exactly the finite values have [x - x = 0]. *)
Definition ffinite (x : F) : bool := fis_zero (fsub x x).

Definition dot (u v : vector F) : F := fold_right fadd fzero (map2 fmul u v).

Fixpoint transpose (k : nat) (X : matrix F) : matrix F :=
  match k with
  | O => []
  | S k' => map (fun row => hd fzero row) X :: transpose k' (map (@tl F) X)
  end.

Definition normal_equations (k : nat) (X : matrix F) (y : vector F) : matrix F :=
  let Xt := transpose k X in
  map (fun col => map (dot col) Xt ++ [dot col y]) Xt.

(** The first row with a non-zero entry in column [j], and the other rows. *)
Fixpoint find_pivot (j : nat) (rows : matrix F) : option (list F * matrix F) :=
  match rows with
  | [] => None
  | r :: rest =>
      if fis_zero (nth j r fzero) then
        match find_pivot j rest with
        | Some (p, others) => Some (p, r :: others)
        | None => None
        end
      else Some (r, rest)
  end.

Definition eliminate (j : nat) (p : list F) (r : list F) : list F :=
  map2 (fun x px => fsub x (fmul (nth j r fzero) px)) r p.

Fixpoint gauss_jordan (steps j : nat) (done rest : matrix F) : result (matrix F) :=
  match steps with
  | O => Ok done
  | S steps' =>
      match find_pivot j rest with
      | None => Raise LinAlgError
      | Some (p, others) =>
          let p' := map (fun x => fdiv x (nth j p fzero)) p in
          gauss_jordan steps' (S j)
                       (map (eliminate j p') done ++ [p'])
                       (map (eliminate j p') others)
      end
  end.

Definition all_rows_equal (X : matrix F) : bool :=
  match X with
  | [] => false
  | r :: rest =>
      forallb (fun r' => Nat.eqb (length r) (length r')
                         && forallb (fun b => b) (map2 feqb r r')) rest
  end.

Definition mean (y : vector F) : F :=
  fdiv (fold_right fadd fzero y) (fof_Z (Z.of_nat (length y))).

Definition lstsq_reference (X : matrix F) (y : vector F) : result (vector F) :=
  if negb (Nat.eqb (length X) (length y)) then Raise LinAlgError
  else if negb (forallb (forallb ffinite) X) then Raise LinAlgError
  else
    match X with
    | [] => Raise LinAlgError
    | r :: _ =>
        if all_rows_equal X then
          let rr := dot r r in
          if fis_zero rr then Ok (map (fun _ => fzero) r)
          else Ok (map (fun x => fdiv (fmul x (mean y)) rr) r)
        else
          let k := length r in
          sol <- gauss_jordan k 0 [] (normal_equations k X y) ;;
          Ok (map (fun row => nth k row fzero) sol)
    end.

End Reference_solver.

#[export] Instance xq_lstsq : Lstsq xq := lstsq_reference.
#[export] Instance b64_lstsq : Lstsq b64 := lstsq_reference.


(** ** A reference percentile to run the model on

    NumPy's default method, written after its implementation: the array is
    sorted, the virtual index is [(n - 1) * (q / 100)], the two neighbours
    are the entries at its floor and the next one (both the entry [-1]
    when the index reaches [n - 1]), the weight is the virtual index minus
    the first of these indexes, and the result is the linear interpolation
    of the neighbours, computed from the upper one when the weight is at
    least one half.  An array that holds a NaN gives NaN; on an empty
    array the last entry does not exist and the indexing raises
    [IndexError]. *)

Section Reference_percentile.

Context {F : Type} {fl : Float64 F}.

(** [np.floor] of a finite position, as an index. *)
Variable ffloor : F -> Z.

Definition lerp (a b t : F) : F :=
  let diff := fsub b a in
  if fleb (fof_Q (1 # 2)) t then fsub b (fmul diff (fsub (fof_Z 1) t))
  else fadd a (fmul diff t).

(** [arr[i]] for an index NumPy has already brought into range, [-1]
    being the last entry. *)
Definition entry (s : vector F) (i : Z) : F :=
  nth (Z.to_nat (if i <? 0 then Z.of_nat (length s) + i else i)) s fnan.

Definition percentile_linear (arr : vector F) (q : F) : result F :=
  match arr with
  | [] => Raise IndexError
  | _ :: _ =>
      if existsb fisnan arr then Ok fnan
      else
        let s := sort_values arr in
        let last := Z.of_nat (length s) - 1 in
        let vi := fmul (fof_Z last) (fdiv q (fof_Z 100)) in
        let above := fleb (fof_Z last) vi in
        let previous := if above then -1 else ffloor vi in
        let next := if above then -1 else previous + 1 in
        let gamma := fsub vi (fof_Z previous) in
        Ok (lerp (entry s previous) (entry s next) gamma)
  end.

End Reference_percentile.

Definition b64_floor (x : b64) : Z :=
  match x with
  | S754_finite s m e => Z.shiftl (if s then Z.neg m else Z.pos m) e
  | _ => 0
  end.

Definition xq_floor (x : xq) : Z :=
  match x with
  | XFin q => Qfloor q
  | _ => 0
  end.

#[export] Instance b64_percentile : Percentile b64 := percentile_linear b64_floor.
#[export] Instance xq_percentile : Percentile xq := percentile_linear xq_floor.

(** ** Sample data to run the model on *)

Definition qx (z : Z) : xq := XFin (inject_Z z).

Definition sample_X : matrix xq :=
  map (map qx) [[1; 0]; [1; 1]; [1; 0]; [1; 1]; [1; 0]; [1; 1]].
Definition sample_Y_me : vector xq := map qx [1; 3; 2; 5; 0; 4].
Definition sample_Y_out : vector xq := map qx [2; 5; 3; 4; 1; 6].

(** The same mediator with its first value missing: every resample that
    draws row 0 carries the NaN into the design of the second fit. *)
Definition gappy_Y_me : vector xq := XNaN :: map qx [3; 2; 5; 0; 4].

Definition bz (z : Z) : b64 := b64_of_Z z.

(** The sample data in binary64. *)
Definition sample_X_b64 : matrix b64 :=
  map (map bz) [[1; 0]; [1; 1]; [1; 0]; [1; 1]; [1; 0]; [1; 1]].
Definition sample_Y_me_b64 : vector b64 := map bz [1; 3; 2; 5; 0; 4].
Definition sample_Y_out_b64 : vector b64 := map bz [2; 5; 3; 4; 1; 6].

(** A data set on which the indirect and the direct effect cancel:
    [a = 1], [b = 1], [d = -1]. *)
Definition cancel_X : matrix b64 := map (map bz) [[1; 0]; [1; 1]; [1; 0]; [1; 1]].
Definition cancel_Y_me : vector b64 := map bz [1; 2; -1; 0].
Definition cancel_Y_out : vector b64 := map bz [1; 1; -1; -1].

(** What IEEE division leaves in percent-mediated when the total is a zero
    of sign [s]: NaN for a zero indirect effect, an infinity for a finite
    non-zero one. *)
Definition ieee_percent_at_zero (ind pct : b64) (s : bool) : Prop :=
  match ind with
  | S754_zero _ => pct = S754_nan
  | S754_finite si _ _ => pct = S754_infinity (xorb si s)
  | _ => False
  end.

(** ** The sheet, its recoding and the working sample (script lines 19-49)

    The same lines open [02_regression.py] and [03_robustness.py].  A cell
    of the sheet is text or a number as pandas reads it; an empty cell is
    the number NaN.  Numeric columns are taken as [float64], which is what
    they are once a column holds a missing value. *)

Inductive cell : Type :=
| Text (s : string)
| Number (x : b64).

(** The columns of the sheet the script reads. *)
Record sheet_row : Type := {
  IEG_Outcome_Ratings : cell;
  IEG_Monitoring_and_Evaluation_Quality_Ratings : cell;
  Project_Volume : cell;
  Approval_FY : cell;
  Closing_FY : cell;
  Country_FCS_Status : cell;
  Lending_Instrument : cell;
  Region : cell
}.

(** A [dict] literal with text keys, in the order it is written. *)
Definition py_dict : Type := list (string * b64).

Definition outcome_map : py_dict :=
  [("Highly Satisfactory", b64_of_Z 6); ("Satisfactory", b64_of_Z 5);
   ("Moderately Satisfactory", b64_of_Z 4); ("Moderately Unsatisfactory", b64_of_Z 3);
   ("Unsatisfactory", b64_of_Z 2); ("Highly Unsatisfactory", b64_of_Z 1);
   ("Not Rated", S754_nan)]%string.

Definition me_map : py_dict :=
  [("High", b64_of_Z 4); ("Substantial", b64_of_Z 3); ("Modest", b64_of_Z 2);
   ("Negligible", b64_of_Z 1); ("Not Rated", S754_nan);
   ("Non-Evaluable", S754_nan)]%string.

Definition vol_map : py_dict :=
  [("<10 million", b64_of_Z 1); (">=10 million & <25 million", b64_of_Z 2);
   (">=25 million & <50 million", b64_of_Z 3); (">=50 million & <100 million", b64_of_Z 4);
   (">=100 million", b64_of_Z 5)]%string.

Fixpoint dict_get (d : py_dict) (k : string) : option b64 :=
  match d with
  | [] => None
  | (k', v) :: rest => if String.eqb k k' then Some v else dict_get rest k
  end.

(** [Series.map(d)] on one cell: a value that is not a key of [d] becomes
    NaN, and so does a cell that holds no text. *)
Definition series_map (d : py_dict) (c : cell) : b64 :=
  match c with
  | Text s =>
      match dict_get d s with
      | Some v => v
      | None => S754_nan
      end
  | Number _ => S754_nan
  end.

(** [cell == s] *)
Definition cell_eq (c : cell) (s : string) : bool :=
  match c with
  | Text t => String.eqb t s
  | Number _ => false
  end.

(** [Series.isin(values)] on one cell *)
Definition isin (c : cell) (values : list string) : bool := existsb (cell_eq c) values.

(** A row of [df] once the new columns are assigned (lines 36-44). *)
Record frame_row : Type := {
  df_sheet : sheet_row;
  df_outcome_num : b64;
  df_me_num : b64;
  df_vol_ord : b64;
  df_approval_fy : b64;
  df_closing_fy : b64;
  df_duration : b64;
  df_fcs : b64;
  df_pforr : b64;
  (* [None]: the value is missing *)
  df_region : option string
}.

Section Recode.

(** What [pd.to_numeric(..., errors="coerce")] makes of a text cell (NaN
    when the text is no number), and what [astype(str)] makes of a number
    in a text column: a text, or (for an empty cell, depending on the
    version of pandas) still a missing value. *)
Variable to_numeric_text : string -> b64.
Variable str_of_number : b64 -> option string.

Definition to_numeric (c : cell) : b64 :=
  match c with
  | Number x => x
  | Text s => to_numeric_text s
  end.

Definition astype_str (c : cell) : option string :=
  match c with
  | Text s => Some s
  | Number x => str_of_number x
  end.

Definition recode (s : sheet_row) : frame_row :=
  let approval := to_numeric (Approval_FY s) in
  let closing := to_numeric (Closing_FY s) in
  {| df_sheet := s;
     df_outcome_num := series_map outcome_map (IEG_Outcome_Ratings s);
     df_me_num := series_map me_map (IEG_Monitoring_and_Evaluation_Quality_Ratings s);
     df_vol_ord := series_map vol_map (Project_Volume s);
     df_approval_fy := approval;
     df_closing_fy := closing;
     df_duration := fsub closing approval;
     df_fcs := to_numeric (Country_FCS_Status s);
     df_pforr := if cell_eq (Lending_Instrument s) "PforR" then b64_of_Z 1 else b64_of_Z 0;
     df_region := astype_str (Region s) |}.

End Recode.

(** [df.dropna(subset=cols)]: the rows with no NaN in the columns [cols]. *)
Definition dropna (cols : list (frame_row -> b64)) (df : list frame_row) : list frame_row :=
  filter (fun r => forallb (fun col => negb (b64_isnan (col r))) cols) df.

(** Lines 46-49; [reset_index(drop=True)] makes the position in the list
    the row label. *)
Definition working_sample (df : list frame_row) : list frame_row :=
  let df2 := filter (fun r => isin (Lending_Instrument (df_sheet r)) ["IPF"; "PforR"]%string) df in
  let df2 := dropna [df_outcome_num; df_me_num; df_pforr;
                     df_approval_fy; df_fcs; df_vol_ord] df2 in
  filter (fun r => SFltb (b64_of_Z 0) (df_duration r)
                   && SFltb (df_duration r) (b64_of_Z 30)) df2.

(** ** The region dummies (line 81)

    [pd.get_dummies(values, drop_first=True).values.astype(float)]: one
    column per distinct value that is present, in sorted order, without
    the first of them; the entry is [1.0] where the row holds the column's
    value.  A missing value is no level, and its row is zero throughout. *)

Fixpoint insert_level (v : string) (levels : list string) : list string :=
  match levels with
  | [] => [v]
  | x :: rest =>
      match String.compare v x with
      | Lt => v :: levels
      | Eq => levels
      | Gt => x :: insert_level v rest
      end
  end.

Definition category_levels (values : list (option string)) : list string :=
  fold_right (fun v levels =>
                match v with
                | Some s => insert_level s levels
                | None => levels
                end) [] values.

Definition dummy_row (columns : list string) (v : option string) : list b64 :=
  map (fun l =>
         match v with
         | Some s => if String.eqb s l then b64_of_Z 1 else b64_of_Z 0
         | None => b64_of_Z 0
         end) columns.

Definition get_dummies_drop_first (values : list (option string)) : matrix b64 :=
  map (dummy_row (tl (category_levels values))) values.

(** The rows of [df2] with their dummies, as the design matrix takes them
    (lines 81-91). *)
Definition frame_obs (df2 : list frame_row) : list (obs (F := b64)) :=
  map2 (fun r dummies =>
          {| pforr := df_pforr r;
             approval_fy := df_approval_fy r;
             vol_ord := df_vol_ord r;
             fcs := df_fcs r;
             region_dummies := dummies;
             outcome_num := df_outcome_num r;
             me_num := df_me_num r |})
       df2 (get_dummies_drop_first (map df_region df2)).

Definition b64_finite (x : b64) : bool :=
  match x with
  | S754_zero _ | S754_finite _ _ _ => true
  | _ => false
  end.

(** A small sheet to run the recoding on. *)
Definition sheet_of (outcome me vol : string) (approval closing fcs : Z) (instrument region : string)
  : sheet_row :=
  {| IEG_Outcome_Ratings := Text outcome;
     IEG_Monitoring_and_Evaluation_Quality_Ratings := Text me;
     Project_Volume := Text vol;
     Approval_FY := Number (b64_of_Z approval);
     Closing_FY := Number (b64_of_Z closing);
     Country_FCS_Status := Number (b64_of_Z fcs);
     Lending_Instrument := Text instrument;
     Region := Text region |}.

Definition sample_sheet : list sheet_row :=
  [sheet_of "Satisfactory" "Substantial" "<10 million" 2012 2017 0 "PforR" "Africa";
   sheet_of "Not Rated" "High" "<10 million" 2010 2015 0 "IPF" "Africa";
   sheet_of "Unsatisfactory" "Modest" ">=100 million" 2005 2011 1 "IPF" "South Asia";
   sheet_of "Satisfactory" "High" ">=100 million" 2005 2005 1 "IPF" "South Asia";
   sheet_of "Highly Satisfactory" "High" ">=100 million" 2014 2019 0 "DPF" "Africa";
   {| IEG_Outcome_Ratings := Text "Moderately Satisfactory";
      IEG_Monitoring_and_Evaluation_Quality_Ratings := Text "Negligible";
      Project_Volume := Text ">=10 million & <25 million";
      Approval_FY := Number (b64_of_Z 2001);
      Closing_FY := Number S754_nan;
      Country_FCS_Status := Number (b64_of_Z 0);
      Lending_Instrument := Text "IPF";
      Region := Text "Europe" |};
   sheet_of "Moderately Unsatisfactory" "Modest" ">=25 million & <50 million"
            1999 2006 0 "IPF" "Europe"]%string.

(** A reading of text cells in which no text is a number, and two readings
    of a number in the region column: it stays missing, or it becomes the
    text [nan]. *)
Definition no_text (s : string) : b64 := S754_nan.
Definition no_str (x : b64) : option string := None.
Definition nan_str (x : b64) : option string := Some "nan"%string.

(** The sample sheet with the region of its last row left empty. *)
Definition sample_sheet_no_region : list sheet_row :=
  firstn 6 sample_sheet ++
  [{| IEG_Outcome_Ratings := Text "Moderately Unsatisfactory";
      IEG_Monitoring_and_Evaluation_Quality_Ratings := Text "Modest";
      Project_Volume := Text ">=25 million & <50 million";
      Approval_FY := Number (b64_of_Z 1999);
      Closing_FY := Number (b64_of_Z 2006);
      Country_FCS_Status := Number (b64_of_Z 0);
      Lending_Instrument := Text "IPF";
      Region := Number S754_nan |}]%string.

(** Case analysis on which key of a [dict] literal the text [s] is. *)
Ltac by_label s :=
  repeat match goal with
         | |- context [String.eqb s ?l] =>
             destruct (String.eqb_spec s l) as [->|?]; cbn [fst snd]
         end.

(** * Properties *)

(** ** Arrays *)

Lemma bind_ok : forall (A B : Type) (r : result A) (k : A -> result B) (a : A),
  r = Ok a -> bind r k = k a.
Proof. intros A B r k a ->. reflexivity. Qed.

Lemma getitem_nonneg : forall (A : Type) (arr : list A) (i : nat) (d : A),
  (i < length arr)%nat -> getitem arr (Z.of_nat i) = Ok (nth i arr d).
Proof.
  intros A arr i d Hi. unfold getitem.
  assert (Hneg : (Z.of_nat i <? 0) = false) by (apply Z.ltb_ge; lia).
  rewrite Hneg. cbv zeta.
  assert (Hin : (0 <=? Z.of_nat i) && (Z.of_nat i <? Z.of_nat (length arr)) = true).
  { apply andb_true_iff. split; [apply Z.leb_le | apply Z.ltb_lt]; lia. }
  rewrite Hin, Nat2Z.id.
  destruct (nth_error arr i) as [v|] eqn:E.
  - f_equal. symmetry. apply nth_error_nth with (d := d) in E. exact E.
  - apply nth_error_None in E. lia.
Qed.

Lemma getitem_in_range : forall (A : Type) (arr : list A) (i : Z) (d : A),
  0 <= i < Z.of_nat (length arr) -> getitem arr i = Ok (nth (Z.to_nat i) arr d).
Proof.
  intros A arr i d Hi.
  rewrite <- (Z2Nat.id i) at 1 by lia.
  apply getitem_nonneg. lia.
Qed.

Lemma getitem_minus_one : forall (A : Type) (arr : list A) (d : A),
  arr <> [] -> getitem arr (-1) = Ok (nth (length arr - 1) arr d).
Proof.
  intros A arr d Hne. unfold getitem.
  assert (Hlen : (0 < length arr)%nat) by (destruct arr; [congruence | simpl; lia]).
  change (-1 <? 0) with true. cbv zeta iota.
  assert (Hin : (0 <=? Z.of_nat (length arr) + -1)
                && (Z.of_nat (length arr) + -1 <? Z.of_nat (length arr)) = true).
  { apply andb_true_iff. split; [apply Z.leb_le | apply Z.ltb_lt]; lia. }
  rewrite Hin.
  replace (Z.to_nat (Z.of_nat (length arr) + -1)) with (length arr - 1)%nat by lia.
  destruct (nth_error arr (length arr - 1)) as [v|] eqn:E.
  - f_equal. symmetry. apply nth_error_nth with (d := d) in E. exact E.
  - apply nth_error_None in E. lia.
Qed.

Lemma getitem_out_of_range : forall (A : Type) (arr : list A) (i : Z),
  Z.of_nat (length arr) <= i -> getitem arr i = Raise IndexError.
Proof.
  intros A arr i Hi. unfold getitem.
  assert (Hneg : (i <? 0) = false) by (apply Z.ltb_ge; lia).
  rewrite Hneg. cbv zeta.
  assert (Hin : (i <? Z.of_nat (length arr)) = false) by (apply Z.ltb_ge; lia).
  rewrite Hin, andb_false_r. reflexivity.
Qed.

Lemma take_in_range : forall (A : Type) (arr : list A) (idx : list Z) (d : A),
  Forall (fun i => 0 <= i < Z.of_nat (length arr)) idx ->
  take arr idx = Ok (map (fun i => nth (Z.to_nat i) arr d) idx).
Proof.
  intros A arr idx d H. induction H as [|i rest Hi _ IH]; simpl.
  - reflexivity.
  - rewrite (getitem_in_range _ arr i d Hi). simpl. rewrite IH. reflexivity.
Qed.

Lemma take_length : forall (A : Type) (arr : list A) (idx : list Z) (vs : list A),
  take arr idx = Ok vs -> length vs = length idx.
Proof.
  intros A arr idx. induction idx as [|i rest IH]; simpl; intros vs H.
  - injection H as <-. reflexivity.
  - destruct (getitem arr i) as [v|e]; simpl in H; [|discriminate].
    destruct (take arr rest) as [vs'|e]; simpl in H; [|discriminate].
    injection H as <-. simpl. f_equal. apply IH. reflexivity.
Qed.

Lemma setitem_length : forall (A : Type) (arr : list A) (i : nat) (v : A) (arr' : list A),
  setitem arr i v = Ok arr' -> length arr' = length arr.
Proof.
  intros A arr. induction arr as [|x t IH]; intros i v arr' H; simpl in H.
  - discriminate.
  - destruct i as [|i'].
    + injection H as <-. reflexivity.
    + destruct (setitem t i' v) as [t'|e] eqn:E; simpl in H; [|discriminate].
      injection H as <-. simpl. f_equal. eapply IH. exact E.
Qed.

Lemma setitem_slot : forall (A : Type) (done : list A) (old v : A) (rest : list A),
  setitem (done ++ old :: rest) (length done) v = Ok (done ++ v :: rest).
Proof.
  intros A done old v rest. induction done as [|x t IH]; simpl.
  - reflexivity.
  - rewrite IH. reflexivity.
Qed.

Lemma append_column_length : forall (F : Type) (X : matrix F) (y : vector F),
  length X = length y -> length (append_column X y) = length X.
Proof.
  intros F X. induction X as [|row X' IH]; intros y H; destruct y as [|v y']; simpl in *;
    try reflexivity; try discriminate.
  f_equal. apply IH. lia.
Qed.

Lemma append_column_rows : forall (F : Type) (X : matrix F) (y : vector F) (k : nat),
  length X = length y -> Forall (fun row => length row = k) X ->
  Forall (fun row => length row = S k) (append_column X y).
Proof.
  intros F X. induction X as [|row X' IH]; intros y k Hlen Hrows;
    destruct y as [|v y']; simpl in *; try constructor; try discriminate.
  - rewrite length_app. simpl. inversion Hrows; subst. lia.
  - apply IH; [lia | inversion Hrows; assumption].
Qed.

Lemma append_column_nth : forall (F : Type) (X : matrix F) (y : vector F) (i : nat) (d : F),
  length X = length y -> (i < length X)%nat ->
  nth i (append_column X y) [] = nth i X [] ++ [nth i y d].
Proof.
  intros F X. induction X as [|row X' IH]; intros y i d Hlen Hi;
    destruct y as [|v y']; simpl in *; try lia.
  destruct i as [|i']; [reflexivity|]. apply IH; lia.
Qed.

(** ** C1 *)

(** C1: on an [n] by [k] design matrix, whenever the least-squares solver
    returns the coefficient vectors of [Y_me] on [X] and of [Y_out] on the
    extended matrix, [mediation_fast] returns entry [PFORR_COL] of the
    first, and the last entry and entry [PFORR_COL] of the second; the
    extended matrix is [X] with [Y_me] appended as its last column. *)
Theorem mediation_fast_coefficients :
  forall (F : Type) (solver : Lstsq F) (X : matrix F) (Yme Yout : vector F)
         (n k : nat) (coef_me coef_out : vector F) (d : F),
    has_shape X n k -> length Yme = n -> (Z.to_nat PFORR_COL < k)%nat ->
    lstsq X Yme = Ok coef_me -> length coef_me = k ->
    lstsq (append_column X Yme) Yout = Ok coef_out -> length coef_out = S k ->
    column_stack X Yme = Ok (append_column X Yme) /\
    has_shape (append_column X Yme) n (S k) /\
    (forall i, (i < n)%nat ->
       nth i (append_column X Yme) [] = nth i X [] ++ [nth i Yme d]) /\
    mediation_fast X Yme Yout
      = Ok (nth (Z.to_nat PFORR_COL) coef_me d, nth k coef_out d,
            nth (Z.to_nat PFORR_COL) coef_out d).
Proof.
  intros F solver X Yme Yout n k coef_me coef_out d [Hn Hrows] Hy Hk Hme Hlme Hout Hlout.
  assert (Hstack : column_stack X Yme = Ok (append_column X Yme)).
  { unfold column_stack. rewrite Hn, Hy, Nat.eqb_refl. reflexivity. }
  split; [exact Hstack|]. split; [|split].
  - split.
    + rewrite append_column_length; congruence.
    + apply append_column_rows; congruence.
  - intros i Hi. apply append_column_nth; congruence.
  - unfold mediation_fast. rewrite Hme. cbn [bind]. rewrite Hstack. cbn [bind].
    rewrite Hout. cbn [bind].
    assert (Hcol : 0 <= PFORR_COL) by (unfold PFORR_COL; lia).
    rewrite (getitem_in_range _ coef_me PFORR_COL d) by lia. cbn [bind].
    rewrite (getitem_minus_one _ coef_out d) by (destruct coef_out; simpl in *; congruence).
    cbn [bind]. rewrite (getitem_in_range _ coef_out PFORR_COL d) by lia. cbn [bind].
    rewrite Hlout. replace (S k - 1)%nat with k by lia. reflexivity.
Qed.

Lemma mediation_fast_coefficients_witness :
  mediation_fast sample_X sample_Y_me sample_Y_out
    = Ok (XFin 3, XFin (1 # 4), XFin (9 # 4)).
Proof.
  refine (proj2 (proj2 (proj2
    (mediation_fast_coefficients xq xq_lstsq sample_X sample_Y_me sample_Y_out 6 2
       [XFin 1; XFin 3] [XFin (7 # 4); XFin (9 # 4); XFin (1 # 4)] XNaN _ _ _ _ _ _ _)))).
  - split; [reflexivity | repeat constructor].
  - reflexivity.
  - vm_compute. lia.
  - vm_compute. reflexivity.
  - reflexivity.
  - vm_compute. reflexivity.
  - reflexivity.
Defined.

(** ** Masks and element-wise operations *)

Lemma select_map_filter : forall (A B : Type) (keep : A -> bool) (f : A -> B) (l : list A),
  select (map keep l) (map f l) = map f (filter keep l).
Proof.
  intros A B keep f l. induction l as [|x t IH]; simpl.
  - reflexivity.
  - destruct (keep x); simpl; rewrite IH; reflexivity.
Qed.

Lemma count_true_map : forall (A : Type) (keep : A -> bool) (l : list A),
  count_true (map keep l) = length (filter keep l).
Proof.
  intros A keep l. unfold count_true. induction l as [|x t IH]; simpl.
  - reflexivity.
  - destruct (keep x); simpl; rewrite IH; reflexivity.
Qed.

Lemma map2_map : forall (A B C D : Type) (f : B -> C -> D) (g : A -> B) (h : A -> C) (l : list A),
  map2 f (map g l) (map h l) = map (fun x => f (g x) (h x)) l.
Proof.
  intros A B C D f g h l. induction l as [|x t IH]; simpl; [|rewrite IH]; reflexivity.
Qed.

Lemma filter_length_le : forall (A : Type) (keep : A -> bool) (l : list A),
  (length (filter keep l) <= length l)%nat.
Proof.
  intros A keep l. induction l as [|x t IH]; simpl; [lia|].
  destruct (keep x); simpl; lia.
Qed.

(** ** The loop *)

Section Loop_facts.

Context {F : Type} {fl : Float64 F} {solver : Lstsq F}.
Context {G : Type} {rs : RandomState G}.

Variable X : matrix F.
Variable Y_me : vector F.
Variable Y_out : vector F.
Variable n : Z.

Local Abbreviation estimate := (resample_estimate X Y_me Y_out).

Lemma try_body_slot : forall (done_i done_d rest_i rest_d : list F) (idx : list Z),
  length done_i = length done_d ->
  try_body X Y_me Y_out (length done_i) idx
    {| boot_ind := done_i ++ fnan :: rest_i; boot_dir := done_d ++ fnan :: rest_d |}
  = {| boot_ind := done_i ++ ind_of (estimate idx) :: rest_i;
       boot_dir := done_d ++ dir_of (estimate idx) :: rest_d |}.
Proof.
  intros done_i done_d rest_i rest_d idx Hlen. unfold try_body.
  destruct (resample_estimate X Y_me Y_out idx) as [[[a b] d]|e]; simpl; [|reflexivity].
  rewrite setitem_slot. rewrite Hlen, setitem_slot. reflexivity.
Qed.

Lemma boot_loop_fill : forall (todo : nat) (done_i done_d : list F) (g : G),
  length done_i = length done_d ->
  boot_loop X Y_me Y_out n todo (length done_i) g
    {| boot_ind := done_i ++ full todo fnan; boot_dir := done_d ++ full todo fnan |}
  = match draws n todo g with
    | Raise e => Raise e
    | Ok (ds, g') =>
        Ok ({| boot_ind := done_i ++ map (fun idx => ind_of (estimate idx)) ds;
               boot_dir := done_d ++ map (fun idx => dir_of (estimate idx)) ds |}, g')
    end.
Proof.
  induction todo as [|todo IH]; intros done_i done_d g Hlen; simpl.
  - reflexivity.
  - destruct (random_randint g 0 n n) as [[idx g1]|e]; [|reflexivity].
    unfold full in *. rewrite try_body_slot by exact Hlen.
    replace (S (length done_i)) with (length (done_i ++ [ind_of (estimate idx)]))
      by (rewrite length_app; simpl; lia).
    replace (done_i ++ ind_of (estimate idx) :: repeat fnan todo)
      with ((done_i ++ [ind_of (estimate idx)]) ++ repeat fnan todo)
      by (rewrite <- app_assoc; reflexivity).
    replace (done_d ++ dir_of (estimate idx) :: repeat fnan todo)
      with ((done_d ++ [dir_of (estimate idx)]) ++ repeat fnan todo)
      by (rewrite <- app_assoc; reflexivity).
    rewrite IH by (rewrite !length_app; simpl; lia).
    destruct (draws n todo g1) as [[rest g2]|e]; [|reflexivity].
    simpl. rewrite <- !app_assoc. reflexivity.
Qed.

Lemma draws_ok : forall (todo : nat) (g : G),
  randint_contract rs -> 0 < n ->
  exists ds g',
    draws n todo g = Ok (ds, g') /\ length ds = todo /\
    Forall (fun idx => length idx = Z.to_nat n /\ Forall (fun i => 0 <= i < n) idx) ds.
Proof.
  intros todo g Hrs Hn. revert g. induction todo as [|todo IH]; intros g; simpl.
  - exists [], g. repeat split. constructor.
  - destruct (Hrs g 0 n n Hn ltac:(lia)) as (idx & g1 & Hdraw & Hlen & Hrange).
    rewrite Hdraw. destruct (IH g1) as (rest & g2 & Hrest & Hlen' & Hall).
    rewrite Hrest. exists (idx :: rest), g2. repeat split.
    + simpl. congruence.
    + constructor; [split|]; assumption.
Qed.

Lemma bootstrap_unfold : forall (pc : Percentile F) (n_boot : nat) (g0 : G),
  bootstrap X Y_me Y_out n n_boot g0
  = match draws n n_boot (random_seed 42) with
    | Raise e => Raise e
    | Ok (ds, g') =>
        r <- intervals (summary {| boot_ind := map ind_of (map estimate ds);
                                   boot_dir := map dir_of (map estimate ds) |} n_boot) ;;
        Ok (r, g')
    end.
Proof.
  intros pc n_boot g0. unfold bootstrap, np_random_seed, initial_arrays.
  pose proof (boot_loop_fill n_boot [] [] (random_seed 42) eq_refl) as H.
  simpl in H. rewrite H.
  destruct (draws n n_boot (random_seed 42)) as [[ds g']|e]; [|reflexivity].
  rewrite !map_map. reflexivity.
Qed.

(** Within range every gather returns the rows drawn. *)
Lemma resample_estimate_rows : forall (idx : list Z) (dflt : F),
  Forall (fun i => 0 <= i < n) idx ->
  n <= Z.of_nat (length X) -> n <= Z.of_nat (length Y_me) -> n <= Z.of_nat (length Y_out) ->
  estimate idx
  = mediation_fast (rows_at X [] idx) (rows_at Y_me dflt idx) (rows_at Y_out dflt idx).
Proof.
  intros idx dflt Hall HX HM HO. unfold resample_estimate, rows_at.
  rewrite (take_in_range _ X idx [])
    by (eapply Forall_impl; [|exact Hall]; intros i Hi; cbv beta in *; lia).
  rewrite (take_in_range _ Y_me idx dflt)
    by (eapply Forall_impl; [|exact Hall]; intros i Hi; cbv beta in *; lia).
  rewrite (take_in_range _ Y_out idx dflt)
    by (eapply Forall_impl; [|exact Hall]; intros i Hi; cbv beta in *; lia).
  reflexivity.
Qed.

End Loop_facts.

(** ** The arrays after the loop, and the intervals *)

Section Outcome_arrays.

Context {F : Type} {fl : Float64 F}.

Variable outcomes : list (result (F * F * F)).

Local Abbreviation arrs :=
  {| boot_ind := map ind_of outcomes; boot_dir := map dir_of outcomes |}.
Local Abbreviation kept := (filter outcome_valid outcomes).

Lemma valid_outcomes : valid arrs = map outcome_valid outcomes.
Proof. unfold valid. simpl. rewrite map_map. reflexivity. Qed.

Lemma valid_ind_outcomes : valid_ind arrs = map ind_of kept.
Proof. unfold valid_ind. rewrite valid_outcomes. simpl. apply select_map_filter. Qed.

Lemma valid_dir_outcomes : valid_dir arrs = map dir_of kept.
Proof. unfold valid_dir. rewrite valid_outcomes. simpl. apply select_map_filter. Qed.

Lemma boot_tot_outcomes :
  boot_tot arrs = map (fun r => fadd (ind_of r) (dir_of r)) kept.
Proof.
  unfold boot_tot. rewrite valid_ind_outcomes, valid_dir_outcomes. apply map2_map.
Qed.

Lemma boot_pct_outcomes :
  boot_pct arrs
  = map (fun r => fmul (fdiv (ind_of r) (fadd (ind_of r) (dir_of r))) (fof_Z 100)) kept.
Proof.
  unfold boot_pct. rewrite valid_ind_outcomes, boot_tot_outcomes.
  rewrite <- (map_id kept) at 1.
  rewrite map_map, map2_map, map_map. reflexivity.
Qed.

Lemma count_valid_outcomes : count_true (valid arrs) = length kept.
Proof. rewrite valid_outcomes. apply count_true_map. Qed.

Lemma valid_ind_no_nan : existsb fisnan (valid_ind arrs) = false.
Proof.
  rewrite valid_ind_outcomes. induction outcomes as [|r t IH]; simpl; [reflexivity|].
  destruct (outcome_valid r) eqn:Hr; simpl; [|exact IH].
  unfold outcome_valid in Hr. apply negb_true_iff in Hr. rewrite Hr. exact IH.
Qed.

End Outcome_arrays.

Section Interval_facts.

Context {F : Type} {fl : Float64 F} {pc : Percentile F}.

Hypothesis Hpc : percentile_contract pc.

Lemma ci_level_low : ci_level (fof_Q (5 # 2)).
Proof. left. reflexivity. Qed.

Lemma ci_level_high : ci_level (fof_Q (195 # 2)).
Proof. right. reflexivity. Qed.

Lemma ci_empty : ci [] = Raise IndexError.
Proof. unfold ci. rewrite (percentile_empty pc Hpc _ ci_level_low). reflexivity. Qed.

Lemma ci_returns : forall arr : vector F,
  arr <> [] ->
  exists lo hi,
    np_percentile arr (fof_Q (5 # 2)) = Ok lo /\
    np_percentile arr (fof_Q (195 # 2)) = Ok hi /\
    ci arr = Ok (lo, hi).
Proof.
  intros arr Harr.
  destruct (percentile_returns pc Hpc arr _ ci_level_low Harr) as [lo Hlo].
  destruct (percentile_returns pc Hpc arr _ ci_level_high Harr) as [hi Hhi].
  exists lo, hi. unfold ci. rewrite Hlo, Hhi. repeat split.
Qed.

Lemma ci_nan : forall arr : vector F,
  existsb fisnan arr = true -> ci arr = Ok (fnan, fnan).
Proof.
  intros arr Hnan. unfold ci.
  rewrite (percentile_nan pc Hpc arr _ ci_level_low Hnan).
  rewrite (percentile_nan pc Hpc arr _ ci_level_high Hnan). reflexivity.
Qed.

Lemma intervals_none : forall (outcomes : list (result (F * F * F))) (n_boot : nat),
  filter outcome_valid outcomes = [] ->
  intervals (summary {| boot_ind := map ind_of outcomes; boot_dir := map dir_of outcomes |}
                     n_boot)
  = Raise IndexError.
Proof.
  intros outcomes n_boot Hnone. unfold intervals, summary. cbn [ci_ind].
  rewrite valid_ind_outcomes, Hnone. simpl. rewrite ci_empty. reflexivity.
Qed.

Lemma intervals_some : forall (outcomes : list (result (F * F * F))) (n_boot : nat),
  filter outcome_valid outcomes <> [] ->
  intervals (summary {| boot_ind := map ind_of outcomes; boot_dir := map dir_of outcomes |}
                     n_boot)
  = Ok (summary {| boot_ind := map ind_of outcomes; boot_dir := map dir_of outcomes |}
                n_boot).
Proof.
  intros outcomes n_boot Hsome.
  assert (Hmap : forall (B : Type) (f : result (F * F * F) -> B),
             map f (filter outcome_valid outcomes) <> []).
  { intros B f H. apply Hsome. destruct (filter outcome_valid outcomes); [reflexivity|].
    discriminate H. }
  unfold intervals, summary. cbn [ci_ind ci_dir ci_tot ci_pct].
  rewrite valid_ind_outcomes, valid_dir_outcomes, boot_tot_outcomes, boot_pct_outcomes.
  destruct (ci_returns _ (Hmap _ ind_of)) as (l1 & h1 & _ & _ & ->).
  destruct (ci_returns _ (Hmap _ dir_of)) as (l2 & h2 & _ & _ & ->).
  destruct (ci_returns _ (Hmap _ (fun r => fadd (ind_of r) (dir_of r))))
    as (l3 & h3 & _ & _ & ->).
  destruct (ci_returns _ (Hmap _ (fun r => fmul (fdiv (ind_of r) (fadd (ind_of r) (dir_of r)))
                                               (fof_Z 100))))
    as (l4 & h4 & _ & _ & ->).
  reflexivity.
Qed.

End Interval_facts.

(** The reference percentile meets the contract, whatever [ffloor] is. *)
Lemma percentile_linear_contract : forall (F : Type) (fl : Float64 F) (ffloor : F -> Z),
  percentile_contract (percentile_linear ffloor).
Proof.
  intros F fl ffloor. split.
  - intros q _. reflexivity.
  - intros arr q _ Harr. destruct arr as [|x t]; [contradiction|].
    unfold np_percentile, percentile_linear.
    destruct (existsb fisnan (x :: t)); eexists; reflexivity.
  - intros arr q _ Hnan. destruct arr as [|x t]; [discriminate|].
    unfold np_percentile, percentile_linear. rewrite Hnan. reflexivity.
Qed.

(** ** The sample generator meets the contract *)

Lemma lcg_draw_spec : forall (count : nat) (s low high : Z),
  low < high ->
  length (fst (lcg_draw count s low high)) = count /\
  Forall (fun i => low <= i < high) (fst (lcg_draw count s low high)).
Proof.
  induction count as [|count IH]; intros s low high Hlt; simpl.
  - split; [reflexivity | constructor].
  - destruct (IH (lcg_next s) low high Hlt) as [Hlen Hall].
    destruct (lcg_draw count (lcg_next s) low high) as [rest s'']. simpl in *.
    split; [congruence|]. constructor; [|exact Hall].
    pose proof (Z.mod_pos_bound (lcg_next s / 65536) (high - low) ltac:(lia)). lia.
Qed.

Lemma lcg_contract : randint_contract lcg.
Proof.
  intros g low high size Hlt Hsize. simpl. unfold lcg_randint.
  assert (Hguard : (low <? high) && (0 <=? size) = true).
  { apply andb_true_iff. split; [apply Z.ltb_lt | apply Z.leb_le]; assumption. }
  rewrite Hguard.
  destruct (lcg_draw_spec (Z.to_nat size) g low high Hlt) as [Hlen Hall].
  destruct (lcg_draw (Z.to_nat size) g low high) as [idx g'] eqn:E. simpl in *.
  exists idx, g'. repeat split; assumption.
Qed.

(** ** C2 *)

(** C2, as the code has it: over arrays of [n > 0] rows, iteration [i]
    draws [n] indices of [[0, n)] with [randint(0, n, n)], runs
    [mediation_fast] on the rows of [X], [Y_me] and [Y_out] at the drawn
    positions and records [a * b] and [d]; an iteration whose estimate
    raises keeps NaN, is masked out by [valid], and so is absent from
    [boot_ind[valid]], [boot_dir[valid]], [boot_tot] and [boot_pct], and
    the loop goes on; the number of valid iterations is counted next to
    [n_boot].  When at least one iteration is valid the run returns its
    report; when none is, [np.percentile] raises [IndexError] on the
    empty array after the loop and the run ends with that exception. *)
Theorem bootstrap_discards_failed_iterations :
  forall (F : Type) (fl : Float64 F) (solver : Lstsq F) (pc : Percentile F)
         (G : Type) (rs : RandomState G)
         (X : matrix F) (Y_me Y_out : vector F) (n : Z) (n_boot : nat) (g0 : G) (dflt : F),
    randint_contract rs -> percentile_contract pc -> 0 < n ->
    length X = Z.to_nat n -> length Y_me = Z.to_nat n -> length Y_out = Z.to_nat n ->
    exists (ds : list (list Z)) (g' : G),
      let outcomes :=
        map (fun idx => mediation_fast (rows_at X [] idx) (rows_at Y_me dflt idx)
                                       (rows_at Y_out dflt idx)) ds in
      let kept := filter outcome_valid outcomes in
      let arrs := {| boot_ind := map ind_of outcomes; boot_dir := map dir_of outcomes |} in
      draws n n_boot (random_seed 42) = Ok (ds, g') /\
      length ds = n_boot /\
      Forall (fun idx => length idx = Z.to_nat n /\ Forall (fun i => 0 <= i < n) idx) ds /\
      boot_loop X Y_me Y_out n n_boot 0 (random_seed 42) (initial_arrays n_boot)
        = Ok (arrs, g') /\
      Forall (fun r => is_ok r = false -> outcome_valid r = false) outcomes /\
      valid arrs = map outcome_valid outcomes /\
      valid_ind arrs = map ind_of kept /\
      valid_dir arrs = map dir_of kept /\
      boot_tot arrs = map (fun r => fadd (ind_of r) (dir_of r)) kept /\
      boot_pct arrs
        = map (fun r => fmul (fdiv (ind_of r) (fadd (ind_of r) (dir_of r))) (fof_Z 100)) kept /\
      n_valid (summary arrs n_boot) = length kept /\
      n_requested (summary arrs n_boot) = n_boot /\
      (n_valid (summary arrs n_boot) <= n_boot)%nat /\
      (kept <> [] -> bootstrap X Y_me Y_out n n_boot g0 = Ok (summary arrs n_boot, g')) /\
      (kept = [] -> bootstrap X Y_me Y_out n n_boot g0 = Raise IndexError).
Proof.
  intros F fl solver pc G rs X Y_me Y_out n n_boot g0 dflt Hrs Hpc Hn HX HM HO.
  destruct (draws_ok n n_boot (random_seed 42) Hrs Hn) as (ds & g' & Hdraws & Hlen & Hall).
  exists ds, g'. cbv zeta.
  assert (Hest : map (resample_estimate X Y_me Y_out) ds
                 = map (fun idx => mediation_fast (rows_at X [] idx) (rows_at Y_me dflt idx)
                                                  (rows_at Y_out dflt idx)) ds).
  { apply map_ext_in. intros idx Hin. rewrite Forall_forall in Hall.
    apply (resample_estimate_rows X Y_me Y_out n);
      [exact (proj2 (Hall idx Hin)) | lia | lia | lia]. }
  set (outcomes := map (fun idx => mediation_fast (rows_at X [] idx) (rows_at Y_me dflt idx)
                                                  (rows_at Y_out dflt idx)) ds) in *.
  split; [exact Hdraws|]. split; [exact Hlen|]. split; [exact Hall|].
  split.
  { pose proof (boot_loop_fill X Y_me Y_out n n_boot [] [] (random_seed 42) eq_refl) as H.
    simpl in H. unfold initial_arrays. rewrite H, Hdraws.
    rewrite <- Hest, !map_map. reflexivity. }
  split.
  { apply Forall_forall. intros r _ Hfail. destruct r as [v|e]; [discriminate|].
    unfold outcome_valid. simpl. rewrite fisnan_nan. reflexivity. }
  split; [apply valid_outcomes|]. split; [apply valid_ind_outcomes|].
  split; [apply valid_dir_outcomes|]. split; [apply boot_tot_outcomes|].
  split; [apply boot_pct_outcomes|]. split; [apply count_valid_outcomes|].
  split; [reflexivity|]. split.
  { simpl. rewrite count_valid_outcomes, (filter_length_le _ outcome_valid outcomes).
    unfold outcomes. rewrite length_map. lia. }
  split.
  - intros Hsome. rewrite bootstrap_unfold, Hdraws, Hest.
    rewrite (intervals_some Hpc outcomes n_boot Hsome). reflexivity.
  - intros Hnone. rewrite bootstrap_unfold, Hdraws, Hest.
    rewrite (intervals_none Hpc outcomes n_boot Hnone). reflexivity.
Qed.

Lemma bootstrap_discards_failed_iterations_witness :
  randint_contract lcg /\ percentile_contract xq_percentile /\ 0 < 6 /\
  length sample_X = 6%nat /\ length gappy_Y_me = 6%nat /\ length sample_Y_out = 6%nat /\
  exists ds g' r,
    draws (rs := lcg) 6 8 (random_seed 42) = Ok (ds, g') /\
    map (fun idx => is_ok (resample_estimate sample_X gappy_Y_me sample_Y_out idx)) ds
      = [true; false; false; false; false; false; true; false] /\
    bootstrap sample_X gappy_Y_me sample_Y_out 6 8 7%Z = Ok (r, g') /\
    n_valid r = 2%nat /\ n_requested r = 8%nat.
Proof.
  split; [exact lcg_contract|]. split; [apply percentile_linear_contract|].
  split; [lia|]. split; [reflexivity|]. split; [reflexivity|]. split; [reflexivity|].
  destruct (bootstrap_discards_failed_iterations xq xq_float xq_lstsq xq_percentile Z lcg
              sample_X gappy_Y_me sample_Y_out 6 8 7%Z XNaN
              lcg_contract (percentile_linear_contract _ _ _) ltac:(lia)
              eq_refl eq_refl eq_refl)
    as (ds & g' & Hdraws & _ & _ & _ & _ & _ & _ & _ & _ & _ & Hcount & Hreq & _ & Hsome & _).
  assert (Hds : Ok (ds, g') = draws (rs := lcg) 6 8 (random_seed 42))
    by (symmetry; exact Hdraws).
  vm_compute in Hds. injection Hds as -> ->.
  eexists _, _, _. split; [vm_compute; reflexivity|].
  split; [vm_compute; reflexivity|].
  split; [apply Hsome; vm_compute; discriminate|].
  split; [rewrite Hcount; vm_compute; reflexivity | exact Hreq].
Defined.

(** C2 fails as stated: with the mediator missing on every row the
    second fit fails in each of the 8 iterations; the loop runs to its end
    and leaves no valid iteration, and the run then raises [IndexError]
    from the first call of [ci]. *)
Lemma run_without_valid_iteration_raises :
  exists arrs g',
    boot_loop (rs := lcg) sample_X (repeat XNaN 6) sample_Y_out 6 8 0 (random_seed 42)
              (initial_arrays 8) = Ok (arrs, g') /\
    valid arrs = repeat false 8 /\
    n_valid (summary arrs 8) = 0%nat /\
    ci_ind (summary arrs 8) = Raise IndexError /\
    bootstrap (rs := lcg) sample_X (repeat XNaN 6) sample_Y_out 6 8 7%Z = Raise IndexError.
Proof.
  destruct (boot_loop (rs := lcg) sample_X (repeat XNaN 6) sample_Y_out 6 8 0 (random_seed 42)
              (initial_arrays 8)) as [[arrs g']|e] eqn:Hrun;
    vm_compute in Hrun; [|discriminate Hrun].
  exists arrs, g'. injection Hrun as <- <-. repeat split.
Qed.

(** ** C3 *)

Lemma nth_map_lt : forall (A B : Type) (f : A -> B) (l : list A) (j : nat) (d : B) (d' : A),
  (j < length l)%nat -> nth j (map f l) d = f (nth j l d').
Proof.
  intros A B f l j d d' Hj.
  rewrite (nth_indep (map f l) d (f d')) by (rewrite length_map; exact Hj).
  apply map_nth.
Qed.

Lemma boot_loop_result : forall (F : Type) (fl : Float64 F) (solver : Lstsq F)
    (G : Type) (rs : RandomState G) (X : matrix F) (Y_me Y_out : vector F) (n : Z)
    (n_boot : nat) (g g' : G) (arrs : boot_arrays F),
  boot_loop X Y_me Y_out n n_boot 0 g (initial_arrays n_boot) = Ok (arrs, g') ->
  exists outcomes : list (result (F * F * F)),
    length outcomes = n_boot /\
    arrs = {| boot_ind := map ind_of outcomes; boot_dir := map dir_of outcomes |}.
Proof.
  intros F fl solver G rs X Y_me Y_out n n_boot g g' arrs Hrun.
  pose proof (boot_loop_fill X Y_me Y_out n n_boot [] [] g eq_refl) as H.
  simpl in H. unfold initial_arrays in Hrun. rewrite H in Hrun.
  destruct (draws n n_boot g) as [[ds g1]|e] eqn:Hdraws; [|discriminate].
  injection Hrun as <- _.
  exists (map (resample_estimate X Y_me Y_out) ds). split.
  - rewrite length_map. clear H. revert g ds g1 Hdraws.
    induction n_boot as [|m IH]; intros g ds g1 Hdraws; simpl in Hdraws.
    + injection Hdraws as <- _. reflexivity.
    + destruct (random_randint g 0 n n) as [[idx g2]|e]; [|discriminate].
      destruct (draws n m g2) as [[rest g3]|e] eqn:E; [|discriminate].
      injection Hdraws as <- _. simpl. f_equal. eapply IH. exact E.
  - rewrite !map_map. reflexivity.
Qed.

(** C3: the total of the point estimate is the sum of its indirect and
    direct effect, and for the arrays any run of the loop returns, the
    [j]-th total is the sum of the [j]-th valid indirect and the [j]-th
    valid direct effect, one total per valid iteration. *)
Theorem total_is_indirect_plus_direct :
  forall (F : Type) (fl : Float64 F) (solver : Lstsq F) (pc : Percentile F)
         (G : Type) (rs : RandomState G)
         (X : matrix F) (Y_me Y_out : vector F) (n : Z) (n_boot : nat) (g g' : G)
         (arrs : boot_arrays F) (a b d dflt : F),
    boot_loop X Y_me Y_out n n_boot 0 g (initial_arrays n_boot) = Ok (arrs, g') ->
    ind_pt (point a b d) = fmul a b /\
    d_pt (point a b d) = d /\
    tot_pt (point a b d) = fadd (ind_pt (point a b d)) (d_pt (point a b d)) /\
    length (valid_ind arrs) = n_valid (summary arrs n_boot) /\
    length (valid_dir arrs) = n_valid (summary arrs n_boot) /\
    length (boot_tot arrs) = n_valid (summary arrs n_boot) /\
    forall j, (j < n_valid (summary arrs n_boot))%nat ->
      nth j (boot_tot arrs) dflt
        = fadd (nth j (valid_ind arrs) dflt) (nth j (valid_dir arrs) dflt).
Proof.
  intros F fl solver pc G rs X Y_me Y_out n n_boot g g' arrs a b d dflt Hrun.
  destruct (boot_loop_result _ _ _ _ _ _ _ _ _ _ _ _ _ Hrun) as (outcomes & _ & ->).
  set (arrs := {| boot_ind := map ind_of outcomes; boot_dir := map dir_of outcomes |}).
  assert (Hvalid : valid arrs = map outcome_valid outcomes).
  { unfold valid, arrs. simpl. rewrite map_map. reflexivity. }
  assert (Hind : valid_ind arrs = map ind_of (filter outcome_valid outcomes)).
  { unfold valid_ind. rewrite Hvalid. apply select_map_filter. }
  assert (Hdir : valid_dir arrs = map dir_of (filter outcome_valid outcomes)).
  { unfold valid_dir. rewrite Hvalid. apply select_map_filter. }
  assert (Htot : boot_tot arrs
                 = map (fun r => fadd (ind_of r) (dir_of r)) (filter outcome_valid outcomes)).
  { unfold boot_tot. rewrite Hind, Hdir. apply map2_map. }
  assert (Hcount : n_valid (summary arrs n_boot) = length (filter outcome_valid outcomes)).
  { simpl. rewrite Hvalid. apply count_true_map. }
  repeat split; try reflexivity.
  - rewrite Hind, Hcount. apply length_map.
  - rewrite Hdir, Hcount. apply length_map.
  - rewrite Htot, Hcount. apply length_map.
  - intros j Hj. rewrite Hcount in Hj. rewrite Htot, Hind, Hdir.
    rewrite (nth_map_lt _ _ _ _ j dflt (Raise IndexError) Hj).
    rewrite (nth_map_lt _ _ ind_of _ j dflt (Raise IndexError) Hj).
    rewrite (nth_map_lt _ _ dir_of _ j dflt (Raise IndexError) Hj).
    reflexivity.
Qed.

Lemma total_is_indirect_plus_direct_witness :
  exists arrs g',
    boot_loop (rs := lcg) sample_X sample_Y_me sample_Y_out 6 8 0 7%Z (initial_arrays 8)
      = Ok (arrs, g') /\
    length (boot_tot arrs) = n_valid (summary arrs 8) /\
    tot_pt (point (qx 2) (qx 3) (qx 5)) = qx 11.
Proof.
  destruct (boot_loop (rs := lcg) sample_X sample_Y_me sample_Y_out 6 8 0 7%Z
              (initial_arrays 8)) as [[arrs g']|e] eqn:Hrun.
  - exists arrs, g'. split; [reflexivity|].
    destruct (total_is_indirect_plus_direct xq xq_float xq_lstsq xq_percentile Z lcg
                sample_X sample_Y_me sample_Y_out 6 8 7%Z g' arrs
                (qx 2) (qx 3) (qx 5) XNaN Hrun)
      as (_ & _ & Htot & _ & _ & Hlen & _).
    split; [exact Hlen|]. rewrite Htot. reflexivity.
  - vm_compute in Hrun. discriminate Hrun.
Defined.

(** ** C4 *)

(** C4: on the point estimates of [a], [b] and the two standard errors,
    the script's [sobel_se], [sobel_z] and [sobel_p] are
    [sqrt(b^2 se_a^2 + a^2 se_b^2)], [(a b) / se] and
    [2 (1 - cdf(|z|))]. *)
Theorem sobel_test_formula :
  forall (F : Type) (fl : Float64 F) (np_sqrt py_abs : F -> F) (py_pow : F -> Z -> F)
         (norm_cdf : F -> F) (a b d se_a se_b : F),
    let pe := point a b d in
    let se := np_sqrt (fadd (fmul (py_pow b 2) (py_pow se_a 2))
                            (fmul (py_pow a 2) (py_pow se_b 2))) in
    let z := fdiv (fmul a b) se in
    sobel_se np_sqrt py_pow pe se_a se_b = se /\
    sobel_z np_sqrt py_pow pe se_a se_b = z /\
    sobel_p np_sqrt py_abs py_pow norm_cdf pe se_a se_b
      = fmul (fof_Z 2) (fsub (fof_Z 1) (norm_cdf (py_abs z))) /\
    (sobel_se np_sqrt py_pow pe se_a se_b,
     sobel_z np_sqrt py_pow pe se_a se_b,
     sobel_p np_sqrt py_abs py_pow norm_cdf pe se_a se_b)
      = sobel_formula np_sqrt py_abs py_pow norm_cdf a se_a b se_b.
Proof.
  intros F fl np_sqrt py_abs py_pow norm_cdf a b d se_a se_b pe se z.
  repeat split.
Qed.

(** ** C5 *)

Lemma b64_add_zero_cases : forall (x y : b64) (s : bool),
  SFadd b64_prec b64_emax x y = S754_zero s ->
  match x with
  | S754_zero _ | S754_finite _ _ _ => True
  | _ => False
  end.
Proof.
  intros x y s H. destruct x as [sx|sx| |sx mx ex]; try exact I;
    destruct y as [sy|sy| |sy my ey]; try discriminate H;
    destruct sx, sy; discriminate H.
Qed.

Lemma b64_percent_at_zero : forall (ind d : b64) (s : bool),
  fadd ind d = S754_zero s ->
  ieee_percent_at_zero ind (fmul (fdiv ind (fadd ind d)) (fof_Z 100)) s.
Proof.
  intros ind d s H. rewrite H.
  pose proof (b64_add_zero_cases ind d s H) as Hcase.
  destruct ind as [si| |  |si m e]; try contradiction; unfold ieee_percent_at_zero.
  - reflexivity.
  - change (fof_Z 100) with (S754_finite false 7036874417766400 (-46)).
    simpl. rewrite xorb_false_r. reflexivity.
Qed.

(** C5, as the code has it: a total of exactly zero is not flagged.
    Percent-mediated is then the IEEE quotient [ind / 0 * 100], NaN only
    when the indirect effect is zero as well and an infinity otherwise, for
    the point estimate and for every valid iteration alike; [boot_pct]
    holds one entry per valid iteration, and [ci_pct] is taken over all of
    them. *)
Theorem zero_total_percent_is_ieee_quotient :
  forall (pc : Percentile b64) (a b d : b64) (outcomes : list (result (b64 * b64 * b64)))
         (n_boot : nat),
    let pe := point a b d in
    let arrs := {| boot_ind := map ind_of outcomes; boot_dir := map dir_of outcomes |} in
    (forall s, tot_pt pe = S754_zero s ->
               ieee_percent_at_zero (ind_pt pe) (pct_pt pe) s) /\
    length (boot_pct arrs) = n_valid (summary arrs n_boot) /\
    ci_pct (summary arrs n_boot) = ci (boot_pct arrs) /\
    (forall j s, (j < n_valid (summary arrs n_boot))%nat ->
       nth j (boot_tot arrs) fnan = S754_zero s ->
       ieee_percent_at_zero (nth j (valid_ind arrs) fnan) (nth j (boot_pct arrs) fnan) s).
Proof.
  intros pc a b d outcomes n_boot pe arrs.
  assert (Hvalid : valid arrs = map outcome_valid outcomes).
  { unfold valid, arrs. simpl. rewrite map_map. reflexivity. }
  assert (Hind : valid_ind arrs = map ind_of (filter outcome_valid outcomes)).
  { unfold valid_ind. rewrite Hvalid. apply select_map_filter. }
  assert (Hdir : valid_dir arrs = map dir_of (filter outcome_valid outcomes)).
  { unfold valid_dir. rewrite Hvalid. apply select_map_filter. }
  assert (Htot : boot_tot arrs
                 = map (fun r => fadd (ind_of r) (dir_of r)) (filter outcome_valid outcomes)).
  { unfold boot_tot. rewrite Hind, Hdir. apply map2_map. }
  assert (Hpct : boot_pct arrs
                 = map (fun r => fmul (fdiv (ind_of r) (fadd (ind_of r) (dir_of r))) (fof_Z 100))
                       (filter outcome_valid outcomes)).
  { unfold boot_pct. rewrite Hind, Htot.
    rewrite <- (map_id (filter outcome_valid outcomes)) at 1.
    rewrite map_map, map2_map, map_map. reflexivity. }
  assert (Hcount : n_valid (summary arrs n_boot) = length (filter outcome_valid outcomes)).
  { simpl. rewrite Hvalid. apply count_true_map. }
  split; [|split; [|split]].
  - intros s Hs. apply (b64_percent_at_zero (fmul a b) d s). exact Hs.
  - rewrite Hpct, Hcount. apply length_map.
  - reflexivity.
  - intros j s Hj Hzero. rewrite Hcount in Hj. rewrite Htot in Hzero. rewrite Hind, Hpct.
    rewrite (nth_map_lt _ _ _ _ j fnan (Raise IndexError) Hj) in Hzero.
    rewrite (nth_map_lt _ _ ind_of _ j fnan (Raise IndexError) Hj).
    rewrite (nth_map_lt _ _ _ _ j fnan (Raise IndexError) Hj).
    apply b64_percent_at_zero. exact Hzero.
Qed.

Lemma zero_total_percent_is_ieee_quotient_witness :
  tot_pt (point (bz 1) (bz 1) (bz (-1))) = S754_zero false /\
  pct_pt (point (bz 1) (bz 1) (bz (-1))) = S754_infinity false.
Proof.
  split; [reflexivity|].
  exact (proj1 (zero_total_percent_is_ieee_quotient b64_percentile (bz 1) (bz 1) (bz (-1))
                  [] 0)
               false eq_refl).
Defined.

(** C5 fails as stated: with [a = 1], [b = 1] and [d = -1] the total is
    [0.0] and percent-mediated is [+inf], not NaN.  The same values in a
    bootstrap iteration put [+inf] into [boot_pct]; the iteration is valid,
    [boot_pct] keeps its single entry, and the percent interval is taken
    over it. *)
Lemma zero_total_percent_not_flagged :
  tot_pt (point (bz 1) (bz 1) (bz (-1))) = S754_zero false /\
  pct_pt (point (bz 1) (bz 1) (bz (-1))) = S754_infinity false /\
  fisnan (pct_pt (point (bz 1) (bz 1) (bz (-1)))) = false /\
  boot_tot {| boot_ind := [bz 1]; boot_dir := [bz (-1)] |} = [S754_zero false] /\
  boot_pct {| boot_ind := [bz 1]; boot_dir := [bz (-1)] |} = [S754_infinity false] /\
  n_valid (summary {| boot_ind := [bz 1]; boot_dir := [bz (-1)] |} 1) = 1%nat /\
  ci_pct (summary {| boot_ind := [bz 1]; boot_dir := [bz (-1)] |} 1)
    = ci [S754_infinity false].
Proof.
  repeat split; vm_compute; reflexivity.
Qed.

(** Data on which the effects cancel: the reference solver in binary64
    returns exactly [a = 1], [b = 1], [d = -1] on [cancel_X], and exactly
    [b = 0], [d = 0] when the outcome is zero on every row. *)
Example cancelling_data_estimates :
  mediation_fast cancel_X cancel_Y_me cancel_Y_out = Ok (bz 1, bz 1, bz (-1)) /\
  mediation_fast cancel_X cancel_Y_me (map bz [0; 0; 0; 0])
    = Ok (bz 1, S754_zero false, S754_zero false).
Proof.
  split; vm_compute; reflexivity.
Qed.

(** ** C6 *)

Lemma intervals_ok : forall (F : Type) (r r' : report F),
  intervals r = Ok r' -> r' = r.
Proof.
  intros F r r'. unfold intervals.
  destruct (ci_ind r); cbn [bind]; [|discriminate].
  destruct (ci_dir r); cbn [bind]; [|discriminate].
  destruct (ci_tot r); cbn [bind]; [|discriminate].
  destruct (ci_pct r); cbn [bind]; [|discriminate].
  congruence.
Qed.

(** C6, as the code has it: the results of a run do not depend on the
    state of NumPy's global generator when the run starts, so two runs on
    the same data and the same number of iterations end alike, with
    identical reports or with the same exception; the generator is the
    process-wide one, reseeded by the script with the constant 42.  The
    loop consumes the first [n_boot] draws after that seed: if one of them
    raises, the run raises the same exception; otherwise the arrays are
    the estimates on these draws, and a run that returns leaves the
    generator in the state reached after them. *)
Theorem bootstrap_reseeds_global_generator :
  forall (F : Type) (fl : Float64 F) (solver : Lstsq F) (pc : Percentile F)
         (G : Type) (rs : RandomState G)
         (X : matrix F) (Y_me Y_out : vector F) (n : Z) (n_boot : nat) (g0 g0' : G)
         (df2 : list (obs (F := F))),
    bootstrap X Y_me Y_out n n_boot g0 = bootstrap X Y_me Y_out n n_boot g0' /\
    script df2 g0 = script df2 g0' /\
    match draws n n_boot (random_seed 42) with
    | Raise e => bootstrap X Y_me Y_out n n_boot g0 = Raise e
    | Ok (ds, g') =>
        let outcomes := map (resample_estimate X Y_me Y_out) ds in
        let arrs := {| boot_ind := map ind_of outcomes; boot_dir := map dir_of outcomes |} in
        boot_loop X Y_me Y_out n n_boot 0 (np_random_seed g0 42) (initial_arrays n_boot)
          = Ok (arrs, g') /\
        forall r g'',
          bootstrap X Y_me Y_out n n_boot g0 = Ok (r, g'') ->
          r = summary arrs n_boot /\ g'' = g'
    end.
Proof.
  intros F fl solver pc G rs X Y_me Y_out n n_boot g0 g0' df2. split; [|split].
  - reflexivity.
  - reflexivity.
  - rewrite bootstrap_unfold.
    pose proof (boot_loop_fill X Y_me Y_out n n_boot [] [] (random_seed 42) eq_refl) as H.
    simpl in H. unfold initial_arrays, np_random_seed. rewrite H.
    destruct (draws n n_boot (random_seed 42)) as [[ds g']|e]; [|reflexivity].
    cbv zeta. split; [rewrite !map_map; reflexivity|].
    intros r g'' Hrun.
    destruct (intervals _) as [r'|e] eqn:Hint; cbn [bind] in Hrun; [|discriminate].
    injection Hrun as <- <-. split; [|reflexivity].
    apply intervals_ok in Hint. exact Hint.
Qed.

(** C6 fails as stated: the caller passes no random source.  Two runs
    started from different generator states return the same report, and
    each leaves the process-wide generator in a new state. *)
Lemma random_source_is_the_global_generator :
  exists r g',
    bootstrap (rs := lcg) sample_X sample_Y_me sample_Y_out 6 8 7%Z = Ok (r, g') /\
    bootstrap (rs := lcg) sample_X sample_Y_me sample_Y_out 6 8 8%Z = Ok (r, g') /\
    g' <> 7%Z /\ g' <> 8%Z.
Proof.
  destruct (bootstrap (rs := lcg) sample_X sample_Y_me sample_Y_out 6 8 7%Z)
    as [[r g']|e] eqn:Hrun.
  - exists r, g'. split; [reflexivity|]. split; [exact Hrun|].
    vm_compute in Hrun. injection Hrun as _ <-. split; discriminate.
  - vm_compute in Hrun. discriminate Hrun.
Qed.

(** ** Gathers that run past the end, and gathers that never reach it *)

Lemma getitem_raises_index : forall (A : Type) (arr : list A) (i : Z) (e : exn),
  getitem arr i = Raise e -> e = IndexError.
Proof.
  intros A arr i e. unfold getitem. cbv zeta.
  destruct ((0 <=? (if i <? 0 then Z.of_nat (length arr) + i else i))
            && ((if i <? 0 then Z.of_nat (length arr) + i else i) <? Z.of_nat (length arr))).
  - destruct (nth_error arr _); intros H; [discriminate | congruence].
  - congruence.
Qed.

Lemma take_raises_index : forall (A : Type) (arr : list A) (idx : list Z) (e : exn),
  take arr idx = Raise e -> e = IndexError.
Proof.
  intros A arr idx e. induction idx as [|i rest IH]; simpl; [discriminate|].
  destruct (getitem arr i) as [v|e'] eqn:Hget; simpl.
  - destruct (take arr rest) as [vs|e'']; simpl; [discriminate|].
    intros H. apply IH. congruence.
  - intros H. apply (getitem_raises_index _ arr i). congruence.
Qed.

Lemma take_out_of_range : forall (A : Type) (arr : list A) (idx : list Z) (i : Z),
  In i idx -> Z.of_nat (length arr) <= i -> take arr idx = Raise IndexError.
Proof.
  intros A arr idx i Hin Hi. induction idx as [|i' rest IH]; simpl in *; [contradiction|].
  destruct (getitem arr i') as [v|e] eqn:Hget; simpl.
  - destruct Hin as [-> | Hin].
    + rewrite getitem_out_of_range in Hget by exact Hi. discriminate.
    + rewrite (IH Hin). reflexivity.
  - f_equal. apply (getitem_raises_index _ arr i'). exact Hget.
Qed.

Lemma nth_firstn_lt : forall (A : Type) (arr : list A) (m i : nat) (d : A),
  (i < m)%nat -> nth i (firstn m arr) d = nth i arr d.
Proof.
  intros A arr. induction arr as [|x t IH]; intros m i d Hi.
  - rewrite firstn_nil. reflexivity.
  - destruct m as [|m']; [lia|]. destruct i as [|i']; simpl; [reflexivity|].
    apply IH. lia.
Qed.

Lemma take_firstn : forall (A : Type) (arr : list A) (idx : list Z) (n : Z),
  Forall (fun i => 0 <= i < n) idx -> n <= Z.of_nat (length arr) ->
  take arr idx = take (firstn (Z.to_nat n) arr) idx.
Proof.
  intros A arr idx n Hall Hn.
  destruct arr as [|d t]; [destruct (Z.to_nat n); reflexivity|].
  rewrite (take_in_range _ (d :: t) idx d).
  - rewrite (take_in_range _ (firstn (Z.to_nat n) (d :: t)) idx d).
    + f_equal. apply map_ext_in. intros i Hi.
      rewrite Forall_forall in Hall. specialize (Hall i Hi).
      symmetry. apply nth_firstn_lt. lia.
    + eapply Forall_impl; [|exact Hall]. intros i Hi. cbv beta in *.
      rewrite length_firstn. lia.
  - eapply Forall_impl; [|exact Hall]. intros i Hi. cbv beta in *. lia.
Qed.

Lemma take_repeat : forall (A : Type) (arr : list A) (j : Z) (m : nat) (d : A),
  0 <= j < Z.of_nat (length arr) ->
  take arr (repeat j m) = Ok (repeat (nth (Z.to_nat j) arr d) m).
Proof.
  intros A arr j m d Hj.
  rewrite (take_in_range _ arr (repeat j m) d).
  - rewrite map_repeat. reflexivity.
  - apply Forall_forall. intros i Hi. apply repeat_spec in Hi. subst i. exact Hj.
Qed.

(** Two sets of arrays on which every drawn resample has the same
    estimate go through the same run. *)
Lemma bootstrap_ext : forall (F : Type) (fl : Float64 F) (solver : Lstsq F)
    (pc : Percentile F) (G : Type) (rs : RandomState G)
    (X X' : matrix F) (Y_me Y_me' Y_out Y_out' : vector F) (n : Z) (n_boot : nat) (g0 : G),
  (forall ds g', draws n n_boot (random_seed 42) = Ok (ds, g') ->
     map (resample_estimate X Y_me Y_out) ds = map (resample_estimate X' Y_me' Y_out') ds) ->
  bootstrap X Y_me Y_out n n_boot g0 = bootstrap X' Y_me' Y_out' n n_boot g0.
Proof.
  intros F fl solver pc G rs X X' Y_me Y_me' Y_out Y_out' n n_boot g0 Hsame.
  rewrite !bootstrap_unfold.
  destruct (draws n n_boot (random_seed 42)) as [[ds g']|e]; [|reflexivity].
  rewrite (Hsame ds g' eq_refl). reflexivity.
Qed.

(** ** C8 *)




(** ** C7 *)




(** ** The reference percentile on some arrays *)

(** On [1, 2, 3, 4, 5] the two levels give the doubles nearest to 1.1 and
    4.9.  On the two finite values [-MAX] and [MAX] the difference of the
    neighbours overflows, and the bounds are [+inf] and [-inf]: the lower
    above the upper, and both outside the values. *)
Example reference_percentile_values :
  ci (map bz [1; 2; 3; 4; 5]) = Ok (b64_of_Q (11 # 10), b64_of_Q (49 # 10)) /\
  ci [S754_finite true 9007199254740991 971; S754_finite false 9007199254740991 971]
    = Ok (S754_infinity false, S754_infinity true).
Proof.
  split; vm_compute; reflexivity.
Qed.

(** ** The Sobel test on the specification's numbers *)

(** With [a = 2.0], [b = 1.5], [se_a = 0.08] and [se_b = 0.05] in binary64
    arithmetic, [sobel_se] lies between 0.1562 and 0.1563 and [sobel_z]
    between 19.2 and 19.3. *)
Example sobel_worked_example :
  let pe := point (b64_of_Q (2 # 1)) (b64_of_Q (3 # 2)) (b64_of_Q (4 # 5)) in
  let se := sobel_se b64_sqrt b64_pow pe (b64_of_Q (8 # 100)) (b64_of_Q (5 # 100)) in
  let z := sobel_z b64_sqrt b64_pow pe (b64_of_Q (8 # 100)) (b64_of_Q (5 # 100)) in
  fleb (b64_of_Q (1562 # 10000)) se = true /\
  fleb se (b64_of_Q (1563 # 10000)) = true /\
  fleb (b64_of_Q (192 # 10)) z = true /\
  fleb z (b64_of_Q (193 # 10)) = true.
Proof.
  vm_compute. repeat split.
Qed.

(** ** The sheet, the working sample and the design arrays *)


Lemma outcome_num_coded : forall c : cell,
  (b64_isnan (series_map outcome_map c) = false <->
   exists s, c = Text s /\
     In s ["Highly Satisfactory"; "Satisfactory"; "Moderately Satisfactory";
           "Moderately Unsatisfactory"; "Unsatisfactory"; "Highly Unsatisfactory"]%string) /\
  In (series_map outcome_map c) (S754_nan :: map b64_of_Z [1; 2; 3; 4; 5; 6]).
Proof.
  intros [s|x]; cbn [series_map].
  - unfold outcome_map; cbn [dict_get]. by_label s.
    all: split; [split|].
    all: try (intros _; eexists; split; [reflexivity|]; simpl; tauto).
    all: try (intros H; vm_compute in H; discriminate H).
    all: try (intros _; vm_compute; reflexivity).
    all: try (vm_compute; tauto).
    all: intros (t & Ht & Hin); injection Ht as <-; simpl in Hin;
      repeat (destruct Hin as [Hin|Hin]; [congruence|]); contradiction.
  - split; [split|].
    + intros H; discriminate H.
    + intros (t & Ht & _); discriminate Ht.
    + left; reflexivity.
Qed.

Lemma me_num_coded : forall c : cell,
  (b64_isnan (series_map me_map c) = false <->
   exists s, c = Text s /\ In s ["High"; "Substantial"; "Modest"; "Negligible"]%string) /\
  In (series_map me_map c) (S754_nan :: map b64_of_Z [1; 2; 3; 4]).
Proof.
  intros [s|x]; cbn [series_map].
  - unfold me_map; cbn [dict_get]. by_label s.
    all: split; [split|].
    all: try (intros _; eexists; split; [reflexivity|]; simpl; tauto).
    all: try (intros H; vm_compute in H; discriminate H).
    all: try (intros _; vm_compute; reflexivity).
    all: try (vm_compute; tauto).
    all: intros (t & Ht & Hin); injection Ht as <-; simpl in Hin;
      repeat (destruct Hin as [Hin|Hin]; [congruence|]); contradiction.
  - split; [split|].
    + intros H; discriminate H.
    + intros (t & Ht & _); discriminate Ht.
    + left; reflexivity.
Qed.

Lemma vol_ord_coded : forall c : cell,
  (b64_isnan (series_map vol_map c) = false <->
   exists s, c = Text s /\
     In s ["<10 million"; ">=10 million & <25 million"; ">=25 million & <50 million";
           ">=50 million & <100 million"; ">=100 million"]%string) /\
  In (series_map vol_map c) (S754_nan :: map b64_of_Z [1; 2; 3; 4; 5]).
Proof.
  intros [s|x]; cbn [series_map].
  - unfold vol_map; cbn [dict_get]. by_label s.
    all: split; [split|].
    all: try (intros _; eexists; split; [reflexivity|]; simpl; tauto).
    all: try (intros H; vm_compute in H; discriminate H).
    all: try (intros _; vm_compute; reflexivity).
    all: try (vm_compute; tauto).
    all: intros (t & Ht & Hin); injection Ht as <-; simpl in Hin;
      repeat (destruct Hin as [Hin|Hin]; [congruence|]); contradiction.
  - split; [split|].
    + intros H; discriminate H.
    + intros (t & Ht & _); discriminate Ht.
    + left; reflexivity.
Qed.

Lemma coded_not_nan : forall (x : b64) (codes : list Z),
  In x (S754_nan :: map b64_of_Z codes) -> b64_isnan x = false ->
  In x (map b64_of_Z codes).
Proof.
  intros x codes [<-|H] Hnan; [discriminate Hnan | exact H].
Qed.

(** X1: each of the three recodings ([outcome_map], [me_map], [vol_map]
    applied with [Series.map]) yields NaN or one of its integer codes, and
    yields a code exactly when the cell holds one of the rated labels,
    spelled as in the [dict]; [Not Rated], [Non-Evaluable], any other
    text, a number and an empty cell all become NaN. *)
Theorem recode_gives_code_or_nan : forall c : cell,
  ((b64_isnan (series_map outcome_map c) = false <->
    exists s, c = Text s /\
      In s ["Highly Satisfactory"; "Satisfactory"; "Moderately Satisfactory";
            "Moderately Unsatisfactory"; "Unsatisfactory"; "Highly Unsatisfactory"]%string) /\
   In (series_map outcome_map c) (S754_nan :: map b64_of_Z [1; 2; 3; 4; 5; 6])) /\
  ((b64_isnan (series_map me_map c) = false <->
    exists s, c = Text s /\ In s ["High"; "Substantial"; "Modest"; "Negligible"]%string) /\
   In (series_map me_map c) (S754_nan :: map b64_of_Z [1; 2; 3; 4])) /\
  ((b64_isnan (series_map vol_map c) = false <->
    exists s, c = Text s /\
      In s ["<10 million"; ">=10 million & <25 million"; ">=25 million & <50 million";
            ">=50 million & <100 million"; ">=100 million"]%string) /\
   In (series_map vol_map c) (S754_nan :: map b64_of_Z [1; 2; 3; 4; 5])).
Proof.
  intros c. split; [|split].
  - apply outcome_num_coded.
  - apply me_num_coded.
  - apply vol_ord_coded.
Qed.

(** X2: the recodings are one-to-one on the labels they give a code: two
    texts recoded to the same number by one of the three [dict]s are the
    same text. *)
Theorem recode_is_one_to_one : forall (d : py_dict) (s t : string),
  In d [outcome_map; me_map; vol_map] ->
  b64_isnan (series_map d (Text s)) = false ->
  series_map d (Text s) = series_map d (Text t) ->
  s = t.
Proof.
  intros d s t Hd. simpl in Hd.
  destruct Hd as [<-|[<-|[<-|[]]]].
  - unfold outcome_map; cbn [series_map dict_get].
    by_label s; intros Hs; try discriminate Hs; clear Hs;
      by_label t; intros Heq; try reflexivity; vm_compute in Heq; discriminate Heq.
  - unfold me_map; cbn [series_map dict_get].
    by_label s; intros Hs; try discriminate Hs; clear Hs;
      by_label t; intros Heq; try reflexivity; vm_compute in Heq; discriminate Heq.
  - unfold vol_map; cbn [series_map dict_get].
    by_label s; intros Hs; try discriminate Hs; clear Hs;
      by_label t; intros Heq; try reflexivity; vm_compute in Heq; discriminate Heq.
Qed.

Lemma recode_is_one_to_one_witness :
  b64_isnan (series_map outcome_map (Text "Satisfactory")) = false /\
  (forall t, series_map outcome_map (Text "Satisfactory") = series_map outcome_map (Text t) ->
             "Satisfactory"%string = t).
Proof.
  split; [reflexivity|]. intros t Ht.
  exact (recode_is_one_to_one outcome_map "Satisfactory" t
           (or_introl eq_refl) eq_refl Ht).
Defined.

Lemma isin_instrument : forall c : cell,
  isin c ["IPF"; "PforR"]%string = true <-> c = Text "IPF" \/ c = Text "PforR".
Proof.
  intros [s|x]; unfold isin; simpl.
  - destruct (String.eqb_spec s "IPF") as [->|H1]; [split; auto|].
    destruct (String.eqb_spec s "PforR") as [->|H2]; [split; auto|].
    simpl. split; [discriminate|]. intros [H|H]; injection H as ->; contradiction.
  - split; [discriminate|]. intros [H|H]; discriminate H.
Qed.

Lemma pforr_indicator : forall c : cell,
  b64_isnan (if cell_eq c "PforR" then b64_of_Z 1 else b64_of_Z 0) = false.
Proof.
  intros c. destruct (cell_eq c "PforR"); reflexivity.
Qed.

Lemma duration_bounds_finite : forall c a : b64,
  SFltb (b64_of_Z 0) (fsub c a) = true -> SFltb (fsub c a) (b64_of_Z 30) = true ->
  b64_finite c = true /\ b64_finite a = true.
Proof.
  intros c a. change (b64_of_Z 0) with (S754_zero false).
  change (b64_of_Z 30) with (S754_finite false 8444249301319680 (-48)).
  destruct c as [sc|sc| |sc mc ec]; destruct a as [sa|sa| |sa ma ea];
    try (intros _ _; split; reflexivity); cbn [fsub b64_float SFsub];
    try destruct sc; try destruct sa; cbn; intros H1 H2;
    try discriminate H1; try discriminate H2.
Qed.

Lemma negb_isnan : forall x : b64, negb (b64_isnan x) = true <-> b64_isnan x = false.
Proof.
  intros x. destruct (b64_isnan x); simpl; split; congruence.
Qed.

(** X3: which rows of the sheet reach the working sample [df2] (lines
    46-49): exactly those whose instrument is the text [IPF] or [PforR],
    whose outcome, M&E and volume cells hold a rated label, whose approval
    year and FCS status are numbers, and whose duration [closing -
    approval] lies strictly between 0 and 30.  The column [pforr], though
    listed in [dropna], never removes a row. *)
Theorem working_sample_criterion :
  forall (to_numeric_text : string -> b64) (str_of_number : b64 -> option string)
         (sheet : list sheet_row) (r : frame_row),
    In r (working_sample (map (recode to_numeric_text str_of_number) sheet)) <->
    exists s : sheet_row,
      In s sheet /\ r = recode to_numeric_text str_of_number s /\
      (Lending_Instrument s = Text "IPF" \/ Lending_Instrument s = Text "PforR") /\
      (exists l, IEG_Outcome_Ratings s = Text l /\
         In l ["Highly Satisfactory"; "Satisfactory"; "Moderately Satisfactory";
               "Moderately Unsatisfactory"; "Unsatisfactory"; "Highly Unsatisfactory"]%string) /\
      (exists l, IEG_Monitoring_and_Evaluation_Quality_Ratings s = Text l /\
         In l ["High"; "Substantial"; "Modest"; "Negligible"]%string) /\
      (exists l, Project_Volume s = Text l /\
         In l ["<10 million"; ">=10 million & <25 million"; ">=25 million & <50 million";
               ">=50 million & <100 million"; ">=100 million"]%string) /\
      b64_isnan (to_numeric to_numeric_text (Approval_FY s)) = false /\
      b64_isnan (to_numeric to_numeric_text (Country_FCS_Status s)) = false /\
      SFltb (b64_of_Z 0)
            (fsub (to_numeric to_numeric_text (Closing_FY s))
                  (to_numeric to_numeric_text (Approval_FY s))) = true /\
      SFltb (fsub (to_numeric to_numeric_text (Closing_FY s))
                  (to_numeric to_numeric_text (Approval_FY s)))
            (b64_of_Z 30) = true.
Proof.
  intros parse str sheet r. unfold working_sample, dropna.
  rewrite !filter_In, in_map_iff. cbn [forallb].
  rewrite !andb_true_iff, !negb_isnan, isin_instrument. split.
  - intros [[[(s & <- & Hs) Hinstr] (Ho & Hm & _ & Ha & Hf & Hv & _)] [Hd1 Hd2]].
    exists s. cbn [recode df_sheet df_outcome_num df_me_num df_vol_ord df_approval_fy
                   df_fcs df_duration] in *.
    repeat split; try assumption.
    + apply (proj1 (outcome_num_coded _)). exact Ho.
    + apply (proj1 (me_num_coded _)). exact Hm.
    + apply (proj1 (vol_ord_coded _)). exact Hv.
  - intros (s & Hs & -> & Hinstr & Ho & Hm & Hv & Ha & Hf & Hd1 & Hd2).
    cbn [recode df_sheet df_outcome_num df_me_num df_vol_ord df_approval_fy
         df_fcs df_duration df_pforr].
    repeat split; try assumption.
    + exists s. split; [reflexivity | exact Hs].
    + apply (proj1 (outcome_num_coded _)). exact Ho.
    + apply (proj1 (me_num_coded _)). exact Hm.
    + apply pforr_indicator.
    + apply (proj1 (vol_ord_coded _)). exact Hv.
Qed.

(** What the columns of a retained row hold. *)
Lemma working_sample_row :
  forall (to_numeric_text : string -> b64) (str_of_number : b64 -> option string)
         (sheet : list sheet_row) (r : frame_row),
    In r (working_sample (map (recode to_numeric_text str_of_number) sheet)) ->
    In (df_outcome_num r) (map b64_of_Z [1; 2; 3; 4; 5; 6]) /\
    In (df_me_num r) (map b64_of_Z [1; 2; 3; 4]) /\
    In (df_vol_ord r) (map b64_of_Z [1; 2; 3; 4; 5]) /\
    ((df_pforr r = b64_of_Z 1 /\ Lending_Instrument (df_sheet r) = Text "PforR") \/
     (df_pforr r = b64_of_Z 0 /\ Lending_Instrument (df_sheet r) = Text "IPF")) /\
    b64_finite (df_approval_fy r) = true /\
    b64_finite (df_closing_fy r) = true /\
    b64_isnan (df_fcs r) = false.
Proof.
  intros parse str sheet r. unfold working_sample, dropna.
  rewrite !filter_In, in_map_iff. cbn [forallb].
  rewrite !andb_true_iff, !negb_isnan, isin_instrument.
  intros [[[(s & <- & Hs) Hinstr] (Ho & Hm & _ & Ha & Hf & Hv & _)] [Hd1 Hd2]].
  cbn [recode df_sheet df_outcome_num df_me_num df_vol_ord df_approval_fy df_closing_fy
       df_fcs df_duration df_pforr] in *.
  destruct (duration_bounds_finite _ _ Hd1 Hd2) as [Hc Happ].
  repeat split; try assumption.
  - apply coded_not_nan; [apply outcome_num_coded | exact Ho].
  - apply coded_not_nan; [apply me_num_coded | exact Hm].
  - apply coded_not_nan; [apply vol_ord_coded | exact Hv].
  - destruct Hinstr as [H|H]; rewrite H; [right | left]; split; reflexivity.
Qed.

Lemma frame_obs_rows : forall df2 : list frame_row,
  frame_obs df2
  = map (fun r =>
           {| pforr := df_pforr r;
              approval_fy := df_approval_fy r;
              vol_ord := df_vol_ord r;
              fcs := df_fcs r;
              region_dummies :=
                dummy_row (tl (category_levels (map df_region df2))) (df_region r);
              outcome_num := df_outcome_num r;
              me_num := df_me_num r |})
        df2.
Proof.
  intros df2. unfold frame_obs, get_dummies_drop_first.
  rewrite map_map. rewrite <- (map_id df2) at 1. apply map2_map.
Qed.

Lemma finite_not_nan : forall x : b64, b64_finite x = true -> b64_isnan x = false.
Proof.
  intros [s|s| |s m e] H; try reflexivity; discriminate H.
Qed.

Lemma small_code_not_nan : forall (x : b64) (codes : list Z),
  Forall (fun k => 0 <= k <= 6) codes -> In x (map b64_of_Z codes) -> b64_isnan x = false.
Proof.
  intros x codes Hall Hin. apply in_map_iff in Hin. destruct Hin as (k & <- & Hk).
  rewrite Forall_forall in Hall. specialize (Hall k Hk).
  assert (Hcases : k = 0 \/ k = 1 \/ k = 2 \/ k = 3 \/ k = 4 \/ k = 5 \/ k = 6) by lia.
  destruct Hcases as [->|[->|[->|[->|[->|[->| ->]]]]]]; reflexivity.
Qed.

Lemma dummy_row_entries : forall (columns : list string) (v : option string),
  length (dummy_row columns v) = length columns /\
  Forall (fun x => x = b64_of_Z 0 \/ x = b64_of_Z 1) (dummy_row columns v).
Proof.
  intros columns v. unfold dummy_row. split; [apply length_map|].
  apply Forall_forall. intros x Hx. apply in_map_iff in Hx. destruct Hx as (l & <- & _).
  destruct v as [s|]; [|left; reflexivity].
  destruct (String.eqb s l); [right | left]; reflexivity.
Qed.

(** The sample sheet: of its seven rows, the rows with an unrated
    outcome, a duration of zero, another instrument and a missing closing
    year are dropped; three rows remain, in the order of the sheet. *)
Example working_sample_of_sample_sheet :
  let df2 := working_sample (map (recode no_text no_str) sample_sheet) in
  map df_region df2 = [Some "Africa"; Some "South Asia"; Some "Europe"]%string /\
  map df_pforr df2 = map b64_of_Z [1; 0; 0] /\
  map df_outcome_num df2 = map b64_of_Z [5; 2; 3] /\
  map df_duration df2 = map b64_of_Z [5; 6; 7] /\
  get_dummies_drop_first (map df_region df2) = map (map b64_of_Z) [[0; 0]; [0; 1]; [1; 0]].
Proof.
  vm_compute. repeat split.
Qed.

(** The same sheet with the region of its last row left empty.  When the
    empty cell stays missing it is no level: the dummies have one column
    and [X] six.  When it becomes the text [nan] it is a level of its own,
    sorted after the others: two columns, and [X] has seven. *)
Example missing_region_by_reading :
  let kept := working_sample (map (recode no_text no_str) sample_sheet_no_region) in
  let as_text := working_sample (map (recode no_text nan_str) sample_sheet_no_region) in
  map df_region kept = [Some "Africa"; Some "South Asia"; None]%string /\
  get_dummies_drop_first (map df_region kept) = map (map b64_of_Z) [[0]; [1]; [0]] /\
  has_shape (design_X (frame_obs kept)) 3 6 /\
  map df_region as_text = [Some "Africa"; Some "South Asia"; Some "nan"]%string /\
  get_dummies_drop_first (map df_region as_text)
    = map (map b64_of_Z) [[0; 0]; [1; 0]; [0; 1]] /\
  has_shape (design_X (frame_obs as_text)) 3 7.
Proof.
  vm_compute. repeat split; repeat constructor.
Qed.


(** ** How a run ends, and which iterations count *)

(** X6: how a bootstrap run (lines 100-127) can end in an exception.  The
    loop itself raises only what [np.random.randint] raises, the call
    standing outside the [try]; an exception of the gathers or of the
    estimator never leaves it.  The run raises [e] exactly when drawing
    the index arrays raises [e], or when all draws succeed, no iteration
    is valid and [e] is the [IndexError] of [np.percentile] on the empty
    array. *)
Theorem run_raises_from_draw_or_percentile :
  forall (F : Type) (fl : Float64 F) (solver : Lstsq F) (pc : Percentile F)
         (G : Type) (rs : RandomState G)
         (X : matrix F) (Y_me Y_out : vector F) (n : Z) (n_boot : nat) (g0 : G),
    percentile_contract pc ->
    (forall e : exn,
       boot_loop X Y_me Y_out n n_boot 0 (random_seed 42) (initial_arrays n_boot) = Raise e <->
       draws n n_boot (random_seed 42) = Raise e) /\
    (forall e : exn,
       bootstrap X Y_me Y_out n n_boot g0 = Raise e <->
       (draws n n_boot (random_seed 42) = Raise e \/
        (e = IndexError /\
         exists ds g',
           draws n n_boot (random_seed 42) = Ok (ds, g') /\
           Forall (fun idx => outcome_valid (resample_estimate X Y_me Y_out idx) = false) ds))).
Proof.
  intros F fl solver pc G rs X Y_me Y_out n n_boot g0 Hpc. split.
  - intros e.
    pose proof (boot_loop_fill X Y_me Y_out n n_boot [] [] (random_seed 42) eq_refl) as H.
    cbn [app Datatypes.length] in H. unfold initial_arrays. rewrite H.
    destruct (draws n n_boot (random_seed 42)) as [[ds g']|e']; split; intros H';
      try discriminate H'; injection H' as ->; reflexivity.
  - intros e. rewrite bootstrap_unfold.
    destruct (draws n n_boot (random_seed 42)) as [[ds g']|e'].
    + set (outcomes := map (resample_estimate X Y_me Y_out) ds).
      assert (Hnone : filter outcome_valid outcomes = [] <->
                      Forall (fun idx => outcome_valid (resample_estimate X Y_me Y_out idx)
                                         = false) ds).
      { unfold outcomes. clear. induction ds as [|idx rest IH]; simpl.
        - split; [constructor | reflexivity].
        - destruct (outcome_valid (resample_estimate X Y_me Y_out idx)) eqn:Hv.
          + split; [discriminate|]. intros H. inversion H. congruence.
          + rewrite IH. split; [intros H; constructor; [exact Hv | exact H]|].
            intros H. inversion H. assumption. }
      destruct (filter outcome_valid outcomes) as [|r t] eqn:Hkept.
      * rewrite (intervals_none Hpc outcomes n_boot Hkept). cbn [bind]. split.
        -- intros H. injection H as <-. right. split; [reflexivity|].
           exists ds, g'. split; [reflexivity|]. apply Hnone. reflexivity.
        -- intros [H|[-> _]]; [discriminate H | reflexivity].
      * rewrite (intervals_some Hpc outcomes n_boot) by (rewrite Hkept; discriminate).
        cbn [bind]. split; [discriminate|].
        intros [H|[_ (ds1 & g1 & Hds & Hall)]]; [discriminate H|].
        injection Hds as <- <-. apply Hnone in Hall. discriminate Hall.
    + split.
      * intros H. left. injection H as ->. reflexivity.
      * intros [H|[_ (ds1 & g1 & Hds & _)]]; [|discriminate Hds].
        injection H as ->. reflexivity.
Qed.

Lemma run_raises_from_draw_or_percentile_witness :
  percentile_contract xq_percentile /\
  bootstrap (rs := lcg) sample_X (repeat XNaN 6) sample_Y_out 6 8 7%Z = Raise IndexError.
Proof.
  split; [apply percentile_linear_contract|].
  apply (proj2 (run_raises_from_draw_or_percentile xq xq_float xq_lstsq xq_percentile Z lcg
                  sample_X (repeat XNaN 6) sample_Y_out 6 8 7%Z
                  (percentile_linear_contract _ _ _))).
  right. split; [reflexivity|].
  eexists _, _. split; [vm_compute; reflexivity|].
  repeat constructor.
Defined.

Lemma draws_length : forall (G : Type) (rs : RandomState G) (n : Z) (todo : nat)
    (g g' : G) (ds : list (list Z)),
  draws n todo g = Ok (ds, g') -> length ds = todo.
Proof.
  intros G rs n todo. induction todo as [|m IH]; intros g g' ds H; simpl in H.
  - injection H as <- _. reflexivity.
  - destruct (random_randint g 0 n n) as [[idx g2]|e]; [|discriminate].
    destruct (draws n m g2) as [[rest g3]|e] eqn:E; [|discriminate].
    injection H as <- _. simpl. f_equal. eapply IH. exact E.
Qed.

Lemma b64_mul_nan : forall a b : b64,
  b64_isnan a = true \/ b64_isnan b = true -> b64_isnan (fmul a b) = true.
Proof.
  intros a b [H|H].
  - destruct a; try discriminate H. reflexivity.
  - destruct b; try discriminate H. destruct a; reflexivity.
Qed.

(** X7: what [valid] counts, in binary64: iteration [i] of a run that
    returned is valid exactly when its estimate returned and the product
    [a * b] is not NaN.  An estimate with a NaN [a] or [b] is discarded
    like a failed one, while the direct effect is stored as it is and does
    not enter the test. *)
Theorem valid_means_product_not_nan :
  forall (solver : Lstsq b64) (G : Type) (rs : RandomState G)
         (X : matrix b64) (Y_me Y_out : vector b64) (n : Z) (n_boot : nat) (g g' : G)
         (arrs : boot_arrays b64),
    boot_loop X Y_me Y_out n n_boot 0 g (initial_arrays n_boot) = Ok (arrs, g') ->
    exists ds : list (list Z),
      draws n n_boot g = Ok (ds, g') /\ length ds = n_boot /\
      length (valid arrs) = n_boot /\
      forall i, (i < n_boot)%nat ->
        let r := resample_estimate X Y_me Y_out (nth i ds []) in
        (nth i (valid arrs) false = true <->
         exists a b d, r = Ok (a, b, d) /\ b64_isnan (fmul a b) = false) /\
        (forall a b d, r = Ok (a, b, d) ->
           b64_isnan a = true \/ b64_isnan b = true -> nth i (valid arrs) false = false) /\
        (forall a b d, r = Ok (a, b, d) ->
           nth i (boot_ind arrs) S754_nan = fmul a b /\ nth i (boot_dir arrs) S754_nan = d).
Proof.
  intros solver G rs X Y_me Y_out n n_boot g g' arrs Hrun.
  pose proof (boot_loop_fill X Y_me Y_out n n_boot [] [] g eq_refl) as H.
  cbn [app Datatypes.length] in H. unfold initial_arrays in Hrun. rewrite H in Hrun. clear H.
  destruct (draws n n_boot g) as [[ds g1]|e] eqn:Hdraws; [|discriminate].
  injection Hrun as <- <-.
  pose proof (draws_length _ _ _ _ _ _ _ Hdraws) as Hlen.
  exists ds. split; [reflexivity|]. split; [exact Hlen|].
  split; [unfold valid; cbn [boot_ind]; rewrite !length_map; exact Hlen|].
  intros i Hi. cbv zeta. unfold valid. cbn [boot_ind boot_dir]. rewrite <- Hlen in Hi.
  rewrite map_map. rewrite (nth_map_lt _ _ _ ds i false [] Hi).
  rewrite (nth_map_lt _ _ _ ds i S754_nan [] Hi).
  rewrite (nth_map_lt _ _ _ ds i S754_nan [] Hi).
  destruct (resample_estimate X Y_me Y_out (nth i ds [])) as [[[a b] d]|e];
    cbn [ind_of dir_of].
  - split; [|split].
    + split.
      * intros Hvalid. exists a, b, d. split; [reflexivity|].
        apply negb_true_iff in Hvalid. exact Hvalid.
      * intros (a' & b' & d' & Heq & Hnan). injection Heq as -> -> ->.
        apply negb_true_iff. exact Hnan.
    + intros a' b' d' Heq Hnan. injection Heq as -> -> ->.
      apply negb_false_iff. apply b64_mul_nan. exact Hnan.
    + intros a' b' d' Heq. injection Heq as -> -> ->. split; reflexivity.
  - split; [|split].
    + split; [intros Hvalid; discriminate Hvalid|].
      intros (a' & b' & d' & Heq & _). discriminate Heq.
    + intros a' b' d' Heq. discriminate Heq.
    + intros a' b' d' Heq. discriminate Heq.
Qed.

Lemma valid_means_product_not_nan_witness :
  exists arrs g' ds,
    boot_loop (rs := lcg) cancel_X cancel_Y_me cancel_Y_out 4 6 0 7%Z (initial_arrays 6)
      = Ok (arrs, g') /\
    draws (rs := lcg) 4 6 7%Z = Ok (ds, g') /\
    length (valid arrs) = 6%nat.
Proof.
  destruct (boot_loop (rs := lcg) cancel_X cancel_Y_me cancel_Y_out 4 6 0 7%Z
              (initial_arrays 6)) as [[arrs g']|e] eqn:Hrun.
  - destruct (valid_means_product_not_nan b64_lstsq Z lcg cancel_X cancel_Y_me cancel_Y_out
                4 6 7%Z g' arrs Hrun) as (ds & Hdraws & _ & Hlen & _).
    exists arrs, g', ds. split; [reflexivity|]. split; assumption.
  - vm_compute in Hrun. discriminate Hrun.
Defined.

(** ** The estimator and the rank of the design *)

Lemma append_column_repeat : forall (F : Type) (row : list F) (v : F) (m : nat),
  append_column (repeat row m) (repeat v m) = repeat (row ++ [v]) m.
Proof.
  intros F row v m. induction m as [|m IH]; simpl; [reflexivity|].
  rewrite IH. reflexivity.
Qed.

(** The three reads of line 98 fail exactly when a solution is too short. *)
Lemma coefficient_reads : forall (F : Type) (coef_me coef_out : vector F) (e : exn),
  (a <- getitem coef_me PFORR_COL ;;
   b <- getitem coef_out (-1) ;;
   d <- getitem coef_out PFORR_COL ;;
   Ok (a, b, d)) = Raise e <->
  e = IndexError /\ (length coef_me <= 1 \/ length coef_out <= 1)%nat.
Proof.
  intros F cm co e. change PFORR_COL with 1.
  destruct (Nat.le_gt_cases (length cm) 1) as [Hcm|Hcm].
  - rewrite (getitem_out_of_range _ cm 1) by lia. cbn [bind].
    split; [intros H; injection H as <-; auto | intros [-> _]; reflexivity].
  - destruct cm as [|x cm']; [simpl in Hcm; lia|].
    rewrite (getitem_in_range _ (x :: cm') 1 x) by lia. cbn [bind].
    destruct co as [|c co'].
    + split; [intros H; injection H as <-; simpl; auto | intros [-> _]; reflexivity].
    + rewrite (getitem_minus_one _ (c :: co') c) by discriminate. cbn [bind].
      destruct (Nat.le_gt_cases (length (c :: co')) 1) as [Hco|Hco].
      * rewrite (getitem_out_of_range _ (c :: co') 1) by lia. cbn [bind].
        split; [intros H; injection H as <-; auto | intros [-> _]; reflexivity].
      * rewrite (getitem_in_range _ (c :: co') 1 c) by lia. cbn [bind].
        split; [discriminate|]. intros [_ [H|H]]; lia.
Qed.

(** X8: [mediation_fast] (lines 94-98) never looks at the rank of the
    design.  It raises exactly when the first solve raises, or the row
    counts of [X] and [Yme] differ ([np.column_stack] raises
    [ValueError]), or the second solve raises, or a solution has fewer
    than two entries (the indexing raises [IndexError]).  A resample that
    draws one observation [m] times is gathered into one row repeated [m]
    times, the extended design is again one row repeated, and the
    estimator runs on it as on any other. *)
Theorem estimator_checks_no_rank :
  forall (F : Type) (solver : Lstsq F) (X : matrix F) (Y_me Y_out : vector F),
    (forall (Xb : matrix F) (Mb Ob : vector F) (e : exn),
       mediation_fast Xb Mb Ob = Raise e <->
       lstsq Xb Mb = Raise e \/
       exists coef_me,
         lstsq Xb Mb = Ok coef_me /\
         ((length Xb <> length Mb /\ e = ValueError) \/
          (length Xb = length Mb /\
           (lstsq (append_column Xb Mb) Ob = Raise e \/
            exists coef_out,
              lstsq (append_column Xb Mb) Ob = Ok coef_out /\
              e = IndexError /\
              (length coef_me <= 1 \/ length coef_out <= 1)%nat)))) /\
    (forall (j : Z) (m : nat) (d : F),
       0 <= j < Z.of_nat (length X) ->
       0 <= j < Z.of_nat (length Y_me) ->
       0 <= j < Z.of_nat (length Y_out) ->
       let row := nth (Z.to_nat j) X [] in
       let me := nth (Z.to_nat j) Y_me d in
       let out := nth (Z.to_nat j) Y_out d in
       take X (repeat j m) = Ok (repeat row m) /\
       column_stack (repeat row m) (repeat me m) = Ok (repeat (row ++ [me]) m) /\
       resample_estimate X Y_me Y_out (repeat j m)
       = mediation_fast (repeat row m) (repeat me m) (repeat out m)).
Proof.
  intros F solver X Y_me Y_out. split.
  - intros Xb Mb Ob e. unfold mediation_fast, column_stack.
    destruct (lstsq Xb Mb) as [cm|e1]; cbn [bind].
    + destruct (Nat.eqb_spec (length Xb) (length Mb)) as [Hlen|Hlen]; cbn [bind].
      * destruct (lstsq (append_column Xb Mb) Ob) as [co|e2]; cbn [bind].
        -- rewrite coefficient_reads. split.
           ++ intros [-> Hshort]. right. exists cm. split; [reflexivity|]. right.
              split; [exact Hlen|]. right. exists co. auto.
           ++ intros [H|(cm' & Hcm & [[Hne _]|[_ [H|(co' & Hco & -> & Hshort)]]])];
                try discriminate H; try contradiction.
              injection Hcm as <-. injection Hco as <-. auto.
        -- split.
           ++ intros H. injection H as ->. right. exists cm. split; [reflexivity|]. right.
              split; [exact Hlen|]. left. reflexivity.
           ++ intros [H|(cm' & _ & [[Hne _]|[_ [H|(co' & H & _)]]])];
                try discriminate H; try contradiction.
              injection H as ->. reflexivity.
      * split.
        -- intros H. injection H as <-. right. exists cm. split; [reflexivity|].
           left. split; [exact Hlen | reflexivity].
        -- intros [H|(cm' & _ & [[_ ->]|[Heq _]])];
             [discriminate H | reflexivity | contradiction].
    + split.
      * intros H. left. injection H as ->. reflexivity.
      * intros [H|(cm' & H & _)]; [|discriminate H]. injection H as ->. reflexivity.
  - intros j m d HX HM HO row me out.
    assert (Htake : take X (repeat j m) = Ok (repeat row m))
      by (apply take_repeat; exact HX).
    split; [exact Htake|]. split.
    + unfold column_stack. rewrite !repeat_length, Nat.eqb_refl, append_column_repeat.
      reflexivity.
    + unfold resample_estimate. rewrite Htake.
      rewrite (take_repeat _ Y_me j m d HM), (take_repeat _ Y_out j m d HO).
      reflexivity.
Qed.

Lemma estimator_checks_no_rank_witness :
  take sample_X [1; 1; 1; 1; 1; 1] = Ok (repeat [qx 1; qx 1] 6) /\
  resample_estimate sample_X sample_Y_me sample_Y_out [1; 1; 1; 1; 1; 1]
  = mediation_fast (repeat [qx 1; qx 1] 6) (repeat (qx 3) 6) (repeat (qx 5) 6).
Proof.
  destruct (proj2 (estimator_checks_no_rank xq xq_lstsq sample_X sample_Y_me sample_Y_out)
              1 6%nat XNaN ltac:(simpl; lia) ltac:(simpl; lia) ltac:(simpl; lia))
    as (Htake & _ & Hest).
  split; [exact Htake | exact Hest].
Defined.
